(** * Task-Loop: rating enforcement, user levels and leaderboard aggregation

    A shallow embedding of four pieces of the application:
    - [src/hooks/use-rating.ts]       (module [UseRating], from one call
                                      of the hook to the next, and module
                                      [UseRatingRender], within one render),
    - [src/components/UserStatistics.tsx], the level computation
                                      (module [UserStatistics]),
    - the leaderboard page            (module [Leaderboard]),
    - [src/pages/Signup.tsx], the submit handler
                                      (module [Signup]),
    followed by the properties proved about them. *)

From Stdlib Require Import List String Ascii Bool ZArith NArith QArith Lia Lqa.
From Stdlib Require Import Sorted Permutation.
Import ListNotations.

Local Open Scope string_scope.
Local Open Scope list_scope.

(* ================================================================== *)
(** * The rating hook *)
(* ================================================================== *)

Module UseRating.

(** Modelled from the spec: the declaration of [TaskType] is imported from
    [@/lib/types], which is not among the sources.  The record carries the
    fields the hook reads: the identifier, the optional doer identifier,
    the two verification flags and the two rating-completion flags. *)
Record TaskType : Type := mkTask {
  id : string;
  doerId : option string;
  isRequestorVerified : bool;
  isDoerVerified : bool;
  isRequestorRated : bool;
  isDoerRated : bool
}.

(** The authenticated user of [useAuth()]; [None] when nobody is logged in. *)
Record AuthUser : Type := mkUser { uid : string }.

(** The three [useState] cells of the hook. *)
Record HookState : Type := mkHook {
  isRatingDialogOpen : bool;
  isEnforcedRating : bool;
  currentTaskForRating : option TaskType
}.

(** [useState(false)], [useState(false)], [useState(null)]. *)
Definition initialState : HookState := mkHook false false None.

(** How the promise returned by [handleSubmitRating] settles. *)
Inductive Settled : Type :=
| Fulfilled (result : bool)
| Rejected.

(** What the hook does to the outside, in program order: the three setters
    and the call of the external submission function, which is recorded
    together with the prompt state that is in force when it is made.  A
    setter takes effect when it is called, and a callback of the hook reads
    the cells as the previous calls left them. *)
Inductive Event : Type :=
| SetIsRatingDialogOpen (b : bool)
| SetIsEnforcedRating (b : bool)
| SetCurrentTaskForRating (t : option TaskType)
| HandleSubmitRating (taskId : string) (rating : Q) (seen : HookState).

Record World : Type := mkWorld {
  hook : HookState;
  trace : list Event
}.

(** The external submission function.  It receives the task identifier and
    the score; the first argument is the prompt state at the moment of the
    call, so that a test double can inspect it. *)
Definition SubmitFn : Type := HookState -> string -> Q -> Settled.

(** ** A small state monad over [World] *)

Definition Hook (A : Type) : Type := World -> A * World.

Definition ret {A : Type} (a : A) : Hook A := fun w => (a, w).

Definition bind {A B : Type} (m : Hook A) (k : A -> Hook B) : Hook B :=
  fun w => let (a, w') := m w in k a w'.

Declare Scope hook_scope.
Delimit Scope hook_scope with hook.
Notation "x <- m ;; k" := (bind m (fun x => k))
  (at level 61, m at next level, right associativity) : hook_scope.
Notation "m ;; k" := (bind m (fun _ => k))
  (at level 61, right associativity) : hook_scope.
Local Open Scope hook_scope.

Definition emit (e : Event) (w : World) : World :=
  mkWorld (hook w) (trace w ++ [e]).

Definition setIsRatingDialogOpen (b : bool) : Hook unit := fun w =>
  let h := hook w in
  (tt, emit (SetIsRatingDialogOpen b)
         (mkWorld (mkHook b (isEnforcedRating h) (currentTaskForRating h))
                  (trace w))).

Definition setIsEnforcedRating (b : bool) : Hook unit := fun w =>
  let h := hook w in
  (tt, emit (SetIsEnforcedRating b)
         (mkWorld (mkHook (isRatingDialogOpen h) b (currentTaskForRating h))
                  (trace w))).

Definition setCurrentTaskForRating (t : option TaskType) : Hook unit := fun w =>
  let h := hook w in
  (tt, emit (SetCurrentTaskForRating t)
         (mkWorld (mkHook (isRatingDialogOpen h) (isEnforcedRating h) t)
                  (trace w))).

(** Reading the [currentTaskForRating] cell.  Each call of a callback is
    taken to come from the render that follows the previous call, whose
    constants are the cells as that call left them; [UseRatingRender] looks
    inside one render. *)
Definition readCurrentTaskForRating : Hook (option TaskType) := fun w =>
  (currentTaskForRating (hook w), w).

(** [await handleSubmitRating(taskId, rating)]. *)
Definition awaitHandleSubmitRating (handleSubmitRating : SubmitFn)
    (taskId : string) (rating : Q) : Hook Settled := fun w =>
  (handleSubmitRating (hook w) taskId rating,
   emit (HandleSubmitRating taskId rating (hook w)) w).

(** ** The hook body *)

(** Strict equality of two optional identifiers, as in
    [task.doerId === user?.id]. *)
Definition strictEq (a b : option string) : bool :=
  match a, b with
  | Some x, Some y => String.eqb x y
  | None, None => true
  | _, _ => false
  end.

Section useRating.

(** The arguments of [useRating] and the user of [useAuth()]. *)
Variable tasks : list TaskType.
Variable appliedTasks : list TaskType.
Variable handleSubmitRating : SubmitFn.
Variable user : option AuthUser.

(** The callback of [appliedTasks.find], lines 17-22. *)
Definition doerNeedsRating (task : TaskType) : bool :=
  strictEq (doerId task) (option_map uid user)
  && isRequestorVerified task
  && isDoerVerified task
  && negb (isDoerRated task).

(** The callback of [tasks.find], lines 34-38. *)
Definition requestorNeedsRating (task : TaskType) : bool :=
  isRequestorVerified task
  && isDoerVerified task
  && negb (isRequestorRated task).

Definition checkForTasksNeedingRating : Hook bool :=
  match find doerNeedsRating appliedTasks with
  | Some doerTask =>
      setCurrentTaskForRating (Some doerTask) ;;
      setIsRatingDialogOpen true ;;
      setIsEnforcedRating true ;;
      ret true
  | None =>
      match find requestorNeedsRating tasks with
      | Some requestorTask =>
          setCurrentTaskForRating (Some requestorTask) ;;
          setIsRatingDialogOpen true ;;
          setIsEnforcedRating true ;;
          ret true
      | None => ret false
      end
  end.

Definition handleRequestRating : Hook unit :=
  checkForTasksNeedingRating ;; ret tt.

Definition onSubmitRating (rating : Q) : Hook bool :=
  current <- readCurrentTaskForRating ;;
  match current with
  | None => ret false
  | Some task =>
      let taskId := id task in
      setIsRatingDialogOpen false ;;
      setCurrentTaskForRating None ;;
      setIsEnforcedRating false ;;
      settled <- awaitHandleSubmitRating handleSubmitRating taskId rating ;;
      match settled with
      | Fulfilled result => ret result
      | Rejected => ret false
      end
  end.

End useRating.

(** One call made on the hook between two renders; the arguments of the
    hook may differ from one render to the next. *)
Inductive Reachable : World -> Prop :=
| reach_init : Reachable (mkWorld initialState [])
| reach_check : forall tasks appliedTasks user w,
    Reachable w ->
    Reachable (snd (checkForTasksNeedingRating tasks appliedTasks user w))
| reach_submit : forall handleSubmitRating rating w,
    Reachable w ->
    Reachable (snd (onSubmitRating handleSubmitRating rating w)).

(** The prompt state with everything cleared. *)
Definition cleared : HookState := mkHook false false None.

(** The three cells agree. *)
Definition synchronized (h : HookState) : Prop :=
  (isRatingDialogOpen h = true <-> isEnforcedRating h = true)
  /\ (isEnforcedRating h = true <-> currentTaskForRating h <> None).

(** The doer owes a rating on [task]: the current user is its doer, both
    sides have verified it and the doer has not rated yet. *)
Definition DoerOwesRating (user : option AuthUser) (task : TaskType) : Prop :=
  doerId task = option_map uid user
  /\ isRequestorVerified task = true
  /\ isDoerVerified task = true
  /\ isDoerRated task = false.

(** The requestor owes a rating on [task]. *)
Definition RequestorOwesRating (task : TaskType) : Prop :=
  isRequestorVerified task = true
  /\ isDoerVerified task = true
  /\ isRequestorRated task = false.

(** [t] is the first element of [l], in the order of the list, that
    satisfies [P]. *)
Definition FirstMatch {A : Type} (P : A -> Prop) (l : list A) (t : A) : Prop :=
  exists before after,
    l = before ++ t :: after
    /\ P t
    /\ Forall (fun x => ~ P x) before.

(** ** The object the hook returns, lines 82-90 *)

Record UseRatingResult : Type := mkUseRating {
  res_isRatingDialogOpen : bool;
  res_setIsRatingDialogOpen : bool -> Hook unit;
  res_isEnforcedRating : bool;
  res_currentTaskForRating : option TaskType;
  res_checkForTasksNeedingRating : Hook bool;
  res_handleRequestRating : Hook unit;
  res_onSubmitRating : Q -> Hook bool
}.

(** The hook called during the render that finds the cells as in [w]. *)
Definition useRating (tasks appliedTasks : list TaskType)
    (handleSubmitRating : SubmitFn) (user : option AuthUser) (w : World)
  : UseRatingResult :=
  mkUseRating
    (isRatingDialogOpen (hook w))
    setIsRatingDialogOpen
    (isEnforcedRating (hook w))
    (currentTaskForRating (hook w))
    (checkForTasksNeedingRating tasks appliedTasks user)
    (handleRequestRating tasks appliedTasks user)
    (onSubmitRating handleSubmitRating).

(** What the caller of the hook can do with the returned object. *)
Inductive CallerAction : Type :=
| CallSetIsRatingDialogOpen (b : bool)
| CallCheckForTasksNeedingRating
| CallHandleRequestRating
| CallOnSubmitRating (rating : Q).

Definition perform (api : UseRatingResult) (a : CallerAction) (w : World)
  : World :=
  match a with
  | CallSetIsRatingDialogOpen b => snd (res_setIsRatingDialogOpen api b w)
  | CallCheckForTasksNeedingRating => snd (res_checkForTasksNeedingRating api w)
  | CallHandleRequestRating => snd (res_handleRequestRating api w)
  | CallOnSubmitRating rating => snd (res_onSubmitRating api rating w)
  end.

(** The worlds a caller can reach through the returned object. *)
Inductive Driven : World -> Prop :=
| driven_init : Driven (mkWorld initialState [])
| driven_step : forall tasks appliedTasks handleSubmitRating user a w,
    Driven w ->
    Driven (perform (useRating tasks appliedTasks handleSubmitRating user w)
                    a w).

(** ** Sample data *)

Definition sampleTask : TaskType :=
  mkTask "t1" (Some "u1") true true false false.

Definition sampleSelected : World :=
  mkWorld (mkHook true true (Some sampleTask)) [].

Definition alwaysRejects : SubmitFn := fun _ _ _ => Rejected.

End UseRating.

(* ================================================================== *)
(** * The rating hook within one render *)
(* ================================================================== *)

Module UseRatingRender.

Import UseRating.

(** One render of the component that calls the hook.  The three cells are
    constants of the render, which the callbacks created by it capture
    ([cells]); a setter leaves them as they are and queues the value that
    the next render will show ([queued]).  The events are recorded as in
    [UseRating]; the state recorded with a call of the submission function
    is the one of the cells of the render that makes the call. *)
Record Render : Type := mkRender {
  cells : HookState;
  queued : HookState;
  events : list Event
}.

(** The render that follows: the queued values become the cells. *)
Definition rerender (r : Render) : Render :=
  mkRender (queued r) (queued r) (events r).

Definition InRender (A : Type) : Type := Render -> A * Render.

Definition retR {A : Type} (a : A) : InRender A := fun r => (a, r).

Definition bindR {A B : Type} (m : InRender A) (k : A -> InRender B)
  : InRender B :=
  fun r => let (a, r') := m r in k a r'.

Declare Scope render_scope.
Delimit Scope render_scope with render.
Notation "x <- m ;; k" := (bindR m (fun x => k))
  (at level 61, m at next level, right associativity) : render_scope.
Notation "m ;; k" := (bindR m (fun _ => k))
  (at level 61, right associativity) : render_scope.
Local Open Scope render_scope.

Definition setIsRatingDialogOpen (b : bool) : InRender unit := fun r =>
  let q := queued r in
  (tt, mkRender (cells r)
         (mkHook b (isEnforcedRating q) (currentTaskForRating q))
         (events r ++ [SetIsRatingDialogOpen b])).

Definition setIsEnforcedRating (b : bool) : InRender unit := fun r =>
  let q := queued r in
  (tt, mkRender (cells r)
         (mkHook (isRatingDialogOpen q) b (currentTaskForRating q))
         (events r ++ [SetIsEnforcedRating b])).

Definition setCurrentTaskForRating (t : option TaskType) : InRender unit :=
  fun r =>
  let q := queued r in
  (tt, mkRender (cells r)
         (mkHook (isRatingDialogOpen q) (isEnforcedRating q) t)
         (events r ++ [SetCurrentTaskForRating t])).

(** [await handleSubmitRating(taskId, rating)], made while the cells of
    the render are what they are. *)
Definition awaitHandleSubmitRating (handleSubmitRating : SubmitFn)
    (taskId : string) (rating : Q) : InRender Settled := fun r =>
  (handleSubmitRating (cells r) taskId rating,
   mkRender (cells r) (queued r)
     (events r ++ [HandleSubmitRating taskId rating (cells r)])).

(** [onSubmitRating], lines 54-80, as the callback of the render: the
    guard and [taskId] read the constant [currentTaskForRating]. *)
Definition onSubmitRating (handleSubmitRating : SubmitFn) (rating : Q)
  : InRender bool := fun r =>
  match currentTaskForRating (cells r) with
  | None => retR false r
  | Some task =>
      let taskId := id task in
      (setIsRatingDialogOpen false ;;
       setCurrentTaskForRating None ;;
       setIsEnforcedRating false ;;
       settled <- awaitHandleSubmitRating handleSubmitRating taskId rating ;;
       match settled with
       | Fulfilled result => retR result
       | Rejected => retR false
       end) r
  end.

(** A render that shows the prompt on [sampleTask]. *)
Definition sampleRender : Render :=
  mkRender (mkHook true true (Some sampleTask))
           (mkHook true true (Some sampleTask)) [].

End UseRatingRender.

(* ================================================================== *)
(** * User levels (statistics view) *)
(* ================================================================== *)

Module UserStatistics.

(** The object literal returned by [getUserLevel]. *)
Record LevelInfo : Type := mkLevel {
  level : string;
  badge : string;
  color : string
}.

(** Lines 125-137. *)
Definition getUserLevel (completedTasks : Z) : LevelInfo :=
  if (completedTasks >=? 50)%Z then mkLevel "Expert" "Expert" "bg-purple-600"
  else if (completedTasks >=? 20)%Z then mkLevel "Advanced" "Advanced" "bg-blue-600"
  else if (completedTasks >=? 10)%Z then
    mkLevel "Intermediate" "Intermediate" "bg-green-600"
  else if (completedTasks >=? 5)%Z then mkLevel "Beginner+" "Beginner+" "bg-yellow-600"
  else mkLevel "Beginner" "Beginner" "bg-gray-600".

(** The denominator shown next to "Progress to next level", line 168. *)
Definition progressDenominator (userLevel : LevelInfo) : Z :=
  if level userLevel =? "Beginner" then 5%Z
  else if level userLevel =? "Regular" then 20%Z
  else if level userLevel =? "Pro" then 50%Z
  else 100%Z.

(** The [value] of the progress bar, lines 171-179. *)
Definition progressValue (tasksCompleted : Z) (userLevel : LevelInfo) : Q :=
  if level userLevel =? "Beginner" then (inject_Z tasksCompleted / 5) * 100
  else if level userLevel =? "Regular" then (inject_Z tasksCompleted / 20) * 100
  else if level userLevel =? "Pro" then (inject_Z tasksCompleted / 50) * 100
  else (inject_Z tasksCompleted / 100) * 100.

(** The names [getUserLevel] can produce. *)
Definition levelNames : list string :=
  ["Beginner"; "Beginner+"; "Intermediate"; "Advanced"; "Expert"].

(** The position of a level name in [levelNames]; a name that is not a
    level has the position past the last one. *)
Definition levelRank (name : string) : nat :=
  if name =? "Beginner" then 0%nat
  else if name =? "Beginner+" then 1%nat
  else if name =? "Intermediate" then 2%nat
  else if name =? "Advanced" then 3%nat
  else if name =? "Expert" then 4%nat
  else 5%nat.

End UserStatistics.

(* ================================================================== *)
(** * The leaderboard page *)
(* ================================================================== *)

Module Leaderboard.

(** The interface declared at the top of the page.  An absent avatar
    ([null] or [undefined]) and an absent rating ([undefined]) are [None]. *)
Record LeaderboardUser : Type := mkEntry {
  id : string;
  username : string;
  avatar_url : option string;
  rating : option Q;
  tasksCount : Z;
  reward : Z
}.

(** A row of the [tasks] table, with the columns the page selects. *)
Record TaskRow : Type := mkTaskRow {
  creator_id : option string;
  doer_id : option string;
  status : string
}.

(** A row of the [user_ratings] table. *)
Record RatingRow : Type := mkRatingRow {
  user_id : option string;
  creator_rating : option Q;
  doer_rating : option Q
}.

(** What the [profiles] query yields for one user. *)
Record Profile : Type := mkProfile {
  profile_username : option string;
  profile_avatar_url : option string
}.

(** The profile store: [.eq("id", id).single()], with [None] when the
    query returns no data. *)
Definition ProfileStore : Type := string -> option Profile.

(** The value type of [creatorMap] and [doerMap]; [rating] is the optional
    property added by the second pass. *)
Record Acc : Type := mkAcc {
  acc_id : string;
  acc_rating : option Q;
  acc_tasksCount : Z;
  acc_reward : Z
}.

(** ** A JavaScript [Map] keyed by strings

    Iteration is in insertion order and [set] on a key that is present
    keeps its position, so the map is an association list. *)
Definition JsMap : Type := list (string * Acc).

Fixpoint map_get (k : string) (m : JsMap) : option Acc :=
  match m with
  | [] => None
  | (k', v) :: rest => if k' =? k then Some v else map_get k rest
  end.

Definition map_has (k : string) (m : JsMap) : bool :=
  match map_get k m with Some _ => true | None => false end.

Fixpoint map_set (k : string) (v : Acc) (m : JsMap) : JsMap :=
  match m with
  | [] => [(k, v)]
  | (k', v') :: rest =>
      if k' =? k then (k, v) :: rest else (k', v') :: map_set k v rest
  end.

(** [!x] is false only for a non-empty string; the result is the
    identifier when it passes the guard [if (!x) return]. *)
Definition truthy (x : option string) : option string :=
  match x with
  | Some s => if s =? "" then None else Some s
  | None => None
  end.

(** The page runs the same pipeline twice, once on [creator_id] and
    [creator_rating] (lines 37-139) and once on [doer_id] and [doer_rating]
    (lines 141-244). *)
Inductive Role : Type := Creator | Doer.

Definition roleId (role : Role) (task : TaskRow) : option string :=
  match role with Creator => creator_id task | Doer => doer_id task end.

Definition roleRating (role : Role) (r : RatingRow) : option Q :=
  match role with Creator => creator_rating r | Doer => doer_rating r end.

(** ** The queries *)

(** [from("tasks").select("creator_id, status")] returns every row;
    [from("tasks").select("doer_id, status").not("doer_id", "is", null)]
    keeps the rows that have a doer. *)
Definition selectTasks (role : Role) (tasks : list TaskRow) : list TaskRow :=
  match role with
  | Creator => tasks
  | Doer => filter (fun t => match doer_id t with Some _ => true | None => false end)
                   tasks
  end.

Definition Qpositive (q : Q) : bool :=
  match (0 ?= q)%Q with Lt => true | _ => false end.

(** [from("user_ratings").select(...).not(col, "is", null).gt(col, 0)]. *)
Definition selectRatings (role : Role) (ratings : list RatingRow)
  : list RatingRow :=
  filter (fun r => match roleRating role r with
                   | Some q => Qpositive q
                   | None => false
                   end) ratings.

(** ** First pass: one accumulator per user, counting completed tasks *)

Definition isCompleted (task : TaskRow) : bool := status task =? "completed".

(** The callback of [tasksData.forEach], lines 55-73 and 160-178. *)
Definition countTask (role : Role) (m : JsMap) (task : TaskRow) : JsMap :=
  match truthy (roleId role task) with
  | None => m
  | Some k =>
      match map_get k m with
      | Some existing =>
          if isCompleted task then
            map_set k (mkAcc (acc_id existing) (acc_rating existing)
                             (acc_tasksCount existing + 1)
                             (acc_reward existing + 100)) m
          else m
      | None =>
          map_set k (mkAcc k None
                           (if isCompleted task then 1 else 0)
                           (if isCompleted task then 100 else 0)) m
      end
  end%Z.

(** ** Second pass: attaching the averages *)

(** The callback of [ratingsData.forEach], lines 87-106 and 192-211. *)
Definition attachRating (role : Role) (m : JsMap) (r : RatingRow) : JsMap :=
  match truthy (user_id r), roleRating role r with
  | Some k, Some q =>
      match map_get k m with
      | Some existing =>
          map_set k (mkAcc (acc_id existing) (Some q)
                           (acc_tasksCount existing) (acc_reward existing)) m
      | None => map_set k (mkAcc k (Some q) 0 0) m
      end
  | _, _ => m
  end%Z.

(** [creatorMap] / [doerMap] after both passes. *)
Definition accumulate (role : Role) (tasks : list TaskRow)
    (ratings : list RatingRow) : JsMap :=
  fold_left (attachRating role) (selectRatings role ratings)
    (fold_left (countTask role) (selectTasks role tasks) []).

(** ** Third pass: display identity *)

(** [x || "Unknown User"]. *)
Definition orUnknown (x : option string) : string :=
  match truthy x with Some s => s | None => "Unknown User" end.

(** The body of the [for ... of map.entries()] loop, lines 112-127 and
    217-232. *)
Definition resolve (profiles : ProfileStore) (entry : string * Acc)
  : LeaderboardUser :=
  let (id, data) := entry in
  let profileData := profiles id in
  mkEntry id
    (orUnknown (match profileData with
                | Some p => profile_username p
                | None => None
                end))
    (match profileData with Some p => profile_avatar_url p | None => None end)
    (acc_rating data) (acc_tasksCount data) (acc_reward data).

(** ** Ranking *)

Definition ratingOrZero (a : LeaderboardUser) : Q :=
  match rating a with Some r => r | None => 0 end.

(** The comparator passed to [sort], lines 131-136 and 236-241. *)
Definition compareFn (a b : LeaderboardUser) : Q :=
  if negb (reward b =? reward a)%Z then inject_Z (reward b - reward a)
  else
    let aRating := ratingOrZero a in
    let bRating := ratingOrZero b in
    bRating - aRating.

(** [Array.prototype.sort] is stable, and with a comparator that is a
    total preorder its result is determined: an element goes in front of
    the first later element it does not have to follow. *)
Fixpoint insertBy {A : Type} (cmp : A -> A -> Q) (x : A) (l : list A) : list A :=
  match l with
  | [] => [x]
  | y :: rest =>
      if Qle_bool (cmp x y) 0 then x :: y :: rest
      else y :: insertBy cmp x rest
  end.

Definition sort {A : Type} (cmp : A -> A -> Q) (l : list A) : list A :=
  fold_right (insertBy cmp) [] l.

(** [slice(0, n)]. *)
Definition slice0 {A : Type} (n : nat) (l : list A) : list A := firstn n l.

(** The array [creators] / [doers] once sorted, before it is cut. *)
Definition ranked (role : Role) (tasks : list TaskRow)
    (ratings : list RatingRow) (profiles : ProfileStore)
  : list LeaderboardUser :=
  sort compareFn (map (resolve profiles) (accumulate role tasks ratings)).

(** The constants [topCreators] and [topDoers]. *)
Definition top (role : Role) (tasks : list TaskRow)
    (ratings : list RatingRow) (profiles : ProfileStore)
  : list LeaderboardUser :=
  slice0 10 (ranked role tasks ratings profiles).

Definition topCreators := top Creator.
Definition topDoers := top Doer.

(** The two lists handed to [setTopCreators] and [setTopDoers] when every
    query succeeds. *)
Definition fetchLeaderboardData (tasks : list TaskRow)
    (ratings : list RatingRow) (profiles : ProfileStore)
  : list LeaderboardUser * list LeaderboardUser :=
  (topCreators tasks ratings profiles, topDoers tasks ratings profiles).

(** ** Vocabulary of the statements *)

(** The number of tasks with status "completed" attributed to [u] in
    [role]. *)
Definition completedCount (role : Role) (tasks : list TaskRow) (u : string)
  : nat :=
  List.length (filter (fun t => match roleId role t with
                           | Some k => (k =? u) && isCompleted t
                           | None => false
                           end) tasks).

(** [a] may stand in front of [b]: a larger reward, or the same reward and
    an average that is not smaller, an absent average counting as 0. *)
Definition rankedBefore (a b : LeaderboardUser) : Prop :=
  (reward b < reward a)%Z
  \/ (reward a = reward b /\ (ratingOrZero b <= ratingOrZero a)%Q).

(** The keys of a map, in iteration order. *)
Definition keys (m : JsMap) : list string := map fst m.

(** The map [m] is consistent with the task rows [seen] processed so far:
    no key occurs twice or is empty, an accumulator holds the number of
    completed tasks of its user and 100 times that number, and a user
    without accumulator occurs in no processed row. *)
Definition Counted (role : Role) (seen : list TaskRow) (m : JsMap) : Prop :=
  NoDup (keys m)
  /\ forall k : string,
       match map_get k m with
       | Some v =>
           k <> ""
           /\ acc_tasksCount v = Z.of_nat (completedCount role seen k)
           /\ acc_reward v = (100 * Z.of_nat (completedCount role seen k))%Z
       | None => k = "" \/ forall t, In t seen -> roleId role t <> Some k
       end.

(** The comparator read on the accumulators: [compareFn] looks at the
    reward and the rating only, which [resolve] copies. *)
Definition compareAcc (x y : string * Acc) : Q :=
  compareFn (resolve (fun _ => None) x) (resolve (fun _ => None) y).

(** The accumulator of a user who has a rating and no task. *)
Definition ratedOnly (u : string) (r : Q) : Acc := mkAcc u (Some r) 0 0.

(** A rating row that passes the query of [role] and the guard of the
    second pass for the user [k]. *)
Definition Qualifies (role : Role) (r : RatingRow) (k : string) : Prop :=
  user_id r = Some k /\ k <> ""
  /\ exists q, roleRating role r = Some q /\ (0 < q)%Q.

(** Entries that [compareFn] cannot tell apart from reward [w] and
    average [q]. *)
Definition tiedAt (w : Z) (q : Q) (e : LeaderboardUser) : bool :=
  (reward e =? w)%Z && Qeq_bool (ratingOrZero e) q.

(** ** The effect as a whole

    A query of the client answers with a [data] and an [error] property;
    the page throws when [error] is set and skips a [data] that is null. *)
Record QueryResult (A : Type) : Type := mkResult {
  data : option (list A);
  error : bool
}.
Arguments mkResult {A} _ _.
Arguments data {A} _.
Arguments error {A} _.

(** The answers to the four queries of the effect, in program order. *)
Record Responses : Type := mkResponses {
  tasksResponse : QueryResult TaskRow;
  ratingsResponse : QueryResult RatingRow;
  doersResponse : QueryResult TaskRow;
  doerRatingsResponse : QueryResult RatingRow
}.

(** The three [useState] cells of the page. *)
Record PageState : Type := mkPage {
  st_topCreators : list LeaderboardUser;
  st_topDoers : list LeaderboardUser;
  st_isLoading : bool
}.

(** [useState([])], [useState([])], [useState(true)]. *)
Definition initialPage : PageState := mkPage [] [] true.

(** [if (data) { data.forEach(...) }]. *)
Definition rowsOf {A : Type} (d : option (list A)) : list A :=
  match d with Some l => l | None => [] end.

(** One run of the pipeline on the answers of its two queries. *)
Definition buildTop (role : Role) (tasksData : option (list TaskRow))
    (ratingsData : option (list RatingRow)) (profiles : ProfileStore)
  : list LeaderboardUser :=
  slice0 10
    (sort compareFn
       (map (resolve profiles)
          (fold_left (attachRating role) (rowsOf ratingsData)
             (fold_left (countTask role) (rowsOf tasksData) [])))).

(** The [try] block of [fetchLeaderboardData], lines 34-244: a query that
    answers with an error throws, which skips the rest of the block. *)
Definition tryBlock (resp : Responses) (profiles : ProfileStore)
    (st : PageState) : PageState :=
  if error (tasksResponse resp) then st
  else if error (ratingsResponse resp) then st
  else
    let topCreators :=
      buildTop Creator (data (tasksResponse resp))
        (data (ratingsResponse resp)) profiles in
    let st := mkPage topCreators (st_topDoers st) (st_isLoading st) in
    if error (doersResponse resp) then st
    else if error (doerRatingsResponse resp) then st
    else
      let topDoers :=
        buildTop Doer (data (doersResponse resp))
          (data (doerRatingsResponse resp)) profiles in
      mkPage (st_topCreators st) topDoers (st_isLoading st).

(** [fetchLeaderboardData] with its [try], [catch] and [finally], lines
    33-250: [setIsLoading(true)], the block, [setIsLoading(false)]. *)
Definition runFetchLeaderboardData (resp : Responses)
    (profiles : ProfileStore) (st : PageState) : PageState :=
  let st := mkPage (st_topCreators st) (st_topDoers st) true in
  let st := tryBlock resp profiles st in
  mkPage (st_topCreators st) (st_topDoers st) false.

(** The answers to the two queries of a role give no accumulator: no task
    row passes the guard of the first pass and no rating row passes the
    guard of the second. *)
Definition NoUsers (role : Role) (tasksData : option (list TaskRow))
    (ratingsData : option (list RatingRow)) : Prop :=
  (forall t, In t (rowsOf tasksData) -> truthy (roleId role t) = None)
  /\ (forall r, In r (rowsOf ratingsData) ->
        truthy (user_id r) = None \/ roleRating role r = None).

(** The answers of a store that holds the two tables and serves every
    query without error. *)
Definition respond (tasks : list TaskRow) (ratings : list RatingRow)
  : Responses :=
  mkResponses
    (mkResult (Some (selectTasks Creator tasks)) false)
    (mkResult (Some (selectRatings Creator ratings)) false)
    (mkResult (Some (selectTasks Doer tasks)) false)
    (mkResult (Some (selectRatings Doer ratings)) false).

(** ** The table

    What [renderLeaderboardTable] shows, lines 255-331. *)
Inductive RankCell : Type :=
| Trophy (className : string)
| RankNumber (n : nat).

(** The rating badge: "N/A" or the average, which the page prints with
    [toFixed(1)]. *)
Inductive RatingCell : Type :=
| NotAvailable
| Average (r : Q).

Record TableRow : Type := mkRow {
  row_key : string;
  row_rank : RankCell;
  row_avatar : option string;
  row_username : string;
  row_tasksCount : Z;
  row_reward : Z;
  row_rating : RatingCell
}.

Inductive View : Type :=
| LoadingView
| NoDataView
| TableView (countHeader : string) (rows : list TableRow).

(** Lines 292-300. *)
Definition rankCell (index : nat) : RankCell :=
  if (index =? 0)%nat then Trophy "h-5 w-5 text-yellow-500"
  else if (index =? 1)%nat then Trophy "h-5 w-5 text-gray-400"
  else if (index =? 2)%nat then Trophy "h-5 w-5 text-amber-700"
  else RankNumber (index + 1).

(** Line 323. *)
Definition ratingCell (user : LeaderboardUser) : RatingCell :=
  match rating user with
  | Some r => if Qpositive r then Average r else NotAvailable
  | None => NotAvailable
  end.

Definition renderRow (user : LeaderboardUser) (index : nat) : TableRow :=
  mkRow (id user) (rankCell index) (truthy (avatar_url user)) (username user)
    (tasksCount user) (reward user) (ratingCell user).

(** [users.map((user, index) => ...)] from the index [index]. *)
Fixpoint mapFrom {A B : Type} (f : A -> nat -> B) (index : nat) (l : list A)
  : list B :=
  match l with
  | [] => []
  | x :: rest => f x index :: mapFrom f (S index) rest
  end.

Definition renderLeaderboardTable (isLoading : bool)
    (users : list LeaderboardUser) (isCreators : bool) : View :=
  if isLoading then LoadingView
  else if (List.length users =? 0)%nat then NoDataView
  else TableView (if isCreators then "Tasks Created" else "Tasks Completed")
                 (mapFrom renderRow 0 users).

(** ** Sample data *)

Definition completedBy (u : string) : TaskRow :=
  mkTaskRow (Some "requestor") (Some u) "completed".

(** Ten doers with one completed task each. *)
Definition tenDoers : list TaskRow :=
  map completedBy ["d0"; "d1"; "d2"; "d3"; "d4"; "d5"; "d6"; "d7"; "d8"; "d9"].

(** A user who has a doer rating of 3 and no task. *)
Definition ratingOfC : RatingRow := mkRatingRow (Some "c") None (Some 3).

Definition noProfiles : ProfileStore := fun _ => None.

End Leaderboard.

(* ================================================================== *)
(** * The signup page *)
(* ================================================================== *)

Module Signup.

(** A JavaScript string is the sequence of its UTF-16 code units, and its
    [length] is their number. *)
Definition CodeUnit : Type := N.
Definition JsString : Type := list CodeUnit.

(** The code units of a string literal of the source, which holds ASCII
    characters only. *)
Definition literal (s : string) : JsString :=
  map N_of_ascii (list_ascii_of_string s).

(** [a === b] on strings. *)
Fixpoint sameString (a b : JsString) : bool :=
  match a, b with
  | [], [] => true
  | x :: a', y :: b' => (x =? y)%N && sameString a' b'
  | _, _ => false
  end.

(** The [useState] cells that [handleSignup] reads or writes.  The error
    under the username only ever holds a literal of the source. *)
Record FormState : Type := mkForm {
  username : JsString;
  email : JsString;
  password : JsString;
  confirmPassword : JsString;
  usernameError : string;
  loading : bool
}.

(** The error of the answer of [signUp]. *)
Record AuthError : Type := mkAuthError { message : option JsString }.

(** [signUp(email, password, { username, full_name })] answers with an
    [error] that may be null. *)
Definition SignUpFn : Type :=
  JsString -> JsString -> JsString * JsString -> option AuthError.

(** What the handler does to the outside: a toast, shown by its title, or
    the call of [signUp]. *)
Inductive Event : Type :=
| Toast (title : string)
| SignUp (email password username full_name : JsString).

(** ** The regular expressions of the password test *)

(** [[a-z]], [[A-Z]], [\d]. *)
Definition isLower (c : CodeUnit) : bool := ((97 <=? c) && (c <=? 122))%N.
Definition isUpper (c : CodeUnit) : bool := ((65 <=? c) && (c <=? 90))%N.
Definition isDigit (c : CodeUnit) : bool := ((48 <=? c) && (c <=? 57))%N.

(** [[\W_]]: a code unit that is no ASCII letter and no ASCII digit. *)
Definition isSpecial (c : CodeUnit) : bool :=
  negb (isLower c || isUpper c || isDigit c).

(** [/(?=.*C)/.test(s)]: the look-ahead succeeds at the position of a
    code unit of the class, so the test asks whether [s] has one. *)
Definition test (class : CodeUnit -> bool) (s : JsString) : bool :=
  existsb class s.

(** [sub] stands at the start of [s]. *)
Fixpoint startsWith (s sub : JsString) : bool :=
  match sub, s with
  | [], _ => true
  | x :: sub', y :: s' => (x =? y)%N && startsWith s' sub'
  | _ :: _, [] => false
  end.

(** [s.includes(sub)]. *)
Fixpoint includes (s sub : JsString) : bool :=
  startsWith s sub
  || match s with
     | [] => false
     | _ :: rest => includes rest sub
     end.

(** The condition of the second [if] of [handleSignup], lines 45-52. *)
Definition invalidPassword (password : JsString) : bool :=
  negb (test isLower password)
  || negb (test isUpper password)
  || negb (test isDigit password)
  || negb (test isSpecial password)
  || (List.length password <? 8)%nat
  || (20 <? List.length password)%nat.

Definition setUsernameError (e : string) (st : FormState) : FormState :=
  mkForm (username st) (email st) (password st) (confirmPassword st) e
    (loading st).

Definition setLoading (b : bool) (st : FormState) : FormState :=
  mkForm (username st) (email st) (password st) (confirmPassword st)
    (usernameError st) b.

Definition takenMessage : string :=
  "This username is already taken. Please choose another one.".

(** Lines 29-89. *)
Definition handleSignup (signUp : SignUpFn) (st : FormState)
  : FormState * list Event :=
  let st := setUsernameError "" st in
  let st := setLoading true st in
  if negb (sameString (password st) (confirmPassword st)) then
    (setLoading false st, [Toast "Password Mismatch"])
  else if invalidPassword (password st) then
    (setLoading false st, [Toast "Invalid Password"])
  else if (List.length (username st) <? 5)%nat then
    (setLoading false st, [Toast "Username Too Short"])
  else
    let call := SignUp (email st) (password st) (username st) (username st) in
    match signUp (email st) (password st) (username st, username st) with
    | Some error =>
        let st :=
          if match message error with
             | Some m => includes m (literal "profiles_username_unique")
             | None => false
             end
          then setUsernameError takenMessage st
          else st in
        let st := setLoading false st in
        (setLoading false st, [call])
    | None => (setLoading false st, [call])
    end.

(** A password the page accepts: eight to twenty code units, among them a
    lower-case letter, an upper-case letter, a digit and a code unit that
    is neither ASCII letter nor ASCII digit. *)
Definition StrongPassword (p : JsString) : Prop :=
  (8 <= List.length p <= 20)%nat
  /\ (exists c, In c p /\ isLower c = true)
  /\ (exists c, In c p /\ isUpper c = true)
  /\ (exists c, In c p /\ isDigit c = true)
  /\ (exists c, In c p /\ isSpecial c = true).

(** The form passes the three checks of [handleSignup]. *)
Definition ValidForm (st : FormState) : Prop :=
  password st = confirmPassword st
  /\ StrongPassword (password st)
  /\ (5 <= List.length (username st))%nat.

(** ** Sample data *)

Definition sampleForm : FormState :=
  mkForm (literal "alice") (literal "alice@example.com")
    (literal "Passw0rd!") (literal "Passw0rd!") "" false.

Definition usernameTaken : SignUpFn := fun _ _ _ =>
  Some (mkAuthError
          (Some (literal "duplicate key value violates unique constraint profiles_username_unique"))).

(** The name written with four Cyrillic letters: four code units. *)
Definition cyrillicName : JsString := [1040; 1085; 1085; 1072]%N.

End Signup.

(* ================================================================== *)
(** * Properties of the rating hook *)
(* ================================================================== *)

Section RatingEnforcement.

Import UseRating.

Lemma strictEq_eq (a b : option string) : strictEq a b = true <-> a = b.
Proof.
  destruct a as [x|], b as [y|]; simpl; try (split; congruence).
  rewrite String.eqb_eq. split; congruence.
Qed.

Lemma doerNeedsRating_spec (user : option AuthUser) (task : TaskType) :
  doerNeedsRating user task = true <-> DoerOwesRating user task.
Proof.
  unfold doerNeedsRating, DoerOwesRating.
  rewrite !andb_true_iff, negb_true_iff, strictEq_eq. tauto.
Qed.

Lemma requestorNeedsRating_spec (task : TaskType) :
  requestorNeedsRating task = true <-> RequestorOwesRating task.
Proof.
  unfold requestorNeedsRating, RequestorOwesRating.
  rewrite !andb_true_iff, negb_true_iff. tauto.
Qed.

(** [find] returns the first element that passes the test. *)
Lemma find_some_first {A : Type} (p : A -> bool) (P : A -> Prop)
    (HpP : forall x, p x = true <-> P x) (l : list A) (t : A) :
  find p l = Some t -> FirstMatch P l t.
Proof.
  induction l as [|x l IH]; simpl; [discriminate|].
  destruct (p x) eqn:Hx.
  - intros [= ->]. exists [], l. repeat split; [now apply HpP | constructor].
  - intros Hf. destruct (IH Hf) as (before & after & -> & Ht & Hb).
    exists (x :: before), after. repeat split; trivial.
    constructor; trivial. rewrite <- HpP. congruence.
Qed.

Lemma find_none_all {A : Type} (p : A -> bool) (P : A -> Prop)
    (HpP : forall x, p x = true <-> P x) (l : list A) :
  find p l = None <-> Forall (fun x => ~ P x) l.
Proof.
  induction l as [|x l IH]; simpl.
  - split; [constructor | trivial].
  - destruct (p x) eqn:Hx.
    + split; [discriminate|]. intros H. inversion_clear H as [|? ? Hn _].
      exfalso. apply Hn, HpP, Hx.
    + rewrite IH. split.
      * constructor; trivial. rewrite <- HpP. congruence.
      * intros H. now inversion H.
Qed.

Lemma all_not_no_witness {A : Type} (P : A -> Prop) (l : list A) :
  Forall (fun x => ~ P x) l -> ~ (exists t, In t l /\ P t).
Proof.
  rewrite Forall_forall. intros H (t & Hin & Ht). exact (H t Hin Ht).
Qed.

Lemma first_match_in {A : Type} (P : A -> Prop) (l : list A) (t : A) :
  FirstMatch P l t -> In t l /\ P t.
Proof.
  intros (before & after & -> & Ht & _). split; trivial.
  apply in_or_app. right. now left.
Qed.

(** What [checkForTasksNeedingRating] computes, case by case. *)
Lemma check_found_doer tasks appliedTasks user w t :
  find (doerNeedsRating user) appliedTasks = Some t ->
  checkForTasksNeedingRating tasks appliedTasks user w
  = (true, mkWorld (mkHook true true (Some t))
             (trace w ++ [SetCurrentTaskForRating (Some t)]
                      ++ [SetIsRatingDialogOpen true]
                      ++ [SetIsEnforcedRating true])).
Proof.
  intros Hf. unfold checkForTasksNeedingRating. rewrite Hf.
  unfold bind, ret, setCurrentTaskForRating, setIsRatingDialogOpen,
    setIsEnforcedRating, emit. simpl.
  now rewrite <- !app_assoc.
Qed.

Lemma check_found_requestor tasks appliedTasks user w t :
  find (doerNeedsRating user) appliedTasks = None ->
  find requestorNeedsRating tasks = Some t ->
  checkForTasksNeedingRating tasks appliedTasks user w
  = (true, mkWorld (mkHook true true (Some t))
             (trace w ++ [SetCurrentTaskForRating (Some t)]
                      ++ [SetIsRatingDialogOpen true]
                      ++ [SetIsEnforcedRating true])).
Proof.
  intros Hd Hr. unfold checkForTasksNeedingRating. rewrite Hd, Hr.
  unfold bind, ret, setCurrentTaskForRating, setIsRatingDialogOpen,
    setIsEnforcedRating, emit. simpl.
  now rewrite <- !app_assoc.
Qed.

Lemma check_not_found tasks appliedTasks user w :
  find (doerNeedsRating user) appliedTasks = None ->
  find requestorNeedsRating tasks = None ->
  checkForTasksNeedingRating tasks appliedTasks user w = (false, w).
Proof.
  intros Hd Hr. unfold checkForTasksNeedingRating. now rewrite Hd, Hr.
Qed.

(** The three shapes of a call, for case analysis. *)
Lemma check_cases tasks appliedTasks user w :
  (exists t, hook (snd (checkForTasksNeedingRating tasks appliedTasks user w))
             = mkHook true true (Some t)
             /\ fst (checkForTasksNeedingRating tasks appliedTasks user w) = true)
  \/ checkForTasksNeedingRating tasks appliedTasks user w = (false, w).
Proof.
  destruct (find (doerNeedsRating user) appliedTasks) as [t|] eqn:Hd.
  - left. exists t. now rewrite (check_found_doer _ _ _ _ _ Hd).
  - destruct (find requestorNeedsRating tasks) as [t|] eqn:Hr.
    + left. exists t. now rewrite (check_found_requestor _ _ _ _ _ Hd Hr).
    + right. now apply check_not_found.
Qed.

(** What [onSubmitRating] computes when a task is selected. *)
Lemma submit_with_task handleSubmitRating rating w task :
  currentTaskForRating (hook w) = Some task ->
  onSubmitRating handleSubmitRating rating w
  = (match handleSubmitRating cleared (id task) rating with
     | Fulfilled result => result
     | Rejected => false
     end,
     mkWorld cleared
       (trace w ++ [SetIsRatingDialogOpen false;
                    SetCurrentTaskForRating None;
                    SetIsEnforcedRating false;
                    HandleSubmitRating (id task) rating cleared])).
Proof.
  intros Hc.
  unfold onSubmitRating, bind, readCurrentTaskForRating. rewrite Hc.
  unfold setCurrentTaskForRating, setIsRatingDialogOpen, setIsEnforcedRating,
    awaitHandleSubmitRating, emit, ret, cleared. simpl.
  rewrite <- !app_assoc. simpl.
  now destruct (handleSubmitRating _ _ _).
Qed.

(** What [onSubmitRating] computes when no task is selected: the guard of
    lines 55-58 returns at once. *)
Lemma submit_guard handleSubmitRating rating w :
  currentTaskForRating (hook w) = None ->
  onSubmitRating handleSubmitRating rating w = (false, w).
Proof.
  intros Hc.
  unfold onSubmitRating, bind, readCurrentTaskForRating. now rewrite Hc.
Qed.

(** C1.  [checkForTasksNeedingRating] answers true exactly when some
    applied task has the current user as a doer who owes a rating, or some
    visible task has a requestor who owes one.  When it answers true the
    prompt is open, enforced, and the current task is the first applied
    task on which the doer owes a rating, or, when there is none, the first
    visible task on which the requestor owes one. *)
Theorem check_selects_first_owed_rating :
  forall (tasks appliedTasks : list TaskType) (user : option AuthUser)
         (w : World),
    let r := checkForTasksNeedingRating tasks appliedTasks user w in
    (fst r = true <->
       (exists t, In t appliedTasks /\ DoerOwesRating user t)
       \/ (exists t, In t tasks /\ RequestorOwesRating t))
    /\ (fst r = true ->
        exists t,
          hook (snd r) = mkHook true true (Some t)
          /\ (FirstMatch (DoerOwesRating user) appliedTasks t
              \/ (Forall (fun x => ~ DoerOwesRating user x) appliedTasks
                  /\ FirstMatch RequestorOwesRating tasks t))).
Proof.
  intros tasks appliedTasks user w r. subst r.
  destruct (find (doerNeedsRating user) appliedTasks) as [t|] eqn:Hd.
  - rewrite (check_found_doer _ _ _ _ _ Hd). simpl.
    apply (find_some_first _ _ (doerNeedsRating_spec user)) in Hd.
    split.
    + split; trivial. intros _. left. exists t. now apply first_match_in in Hd.
    + intros _. exists t. auto.
  - pose proof (proj1 (find_none_all _ _ (doerNeedsRating_spec user) _) Hd)
      as Hnone.
    destruct (find requestorNeedsRating tasks) as [t|] eqn:Hr.
    + rewrite (check_found_requestor _ _ _ _ _ Hd Hr). simpl.
      apply (find_some_first _ _ requestorNeedsRating_spec) in Hr.
      split.
      * split; trivial. intros _. right. exists t.
        now apply first_match_in in Hr.
      * intros _. exists t. auto.
    + rewrite (check_not_found _ _ _ _ Hd Hr). simpl.
      apply (find_none_all _ _ requestorNeedsRating_spec) in Hr.
      split; [|discriminate].
      split; [discriminate|].
      intros [H|H]; exfalso; revert H; now apply all_not_no_witness.
Qed.

(** What the callback of a render computes when the render has a current
    task. *)
Lemma render_submit_with_task handleSubmitRating rating r task :
  currentTaskForRating (UseRatingRender.cells r) = Some task ->
  UseRatingRender.onSubmitRating handleSubmitRating rating r
  = (match handleSubmitRating (UseRatingRender.cells r) (id task) rating with
     | Fulfilled result => result
     | Rejected => false
     end,
     UseRatingRender.mkRender (UseRatingRender.cells r) cleared
       (UseRatingRender.events r
        ++ [SetIsRatingDialogOpen false;
            SetCurrentTaskForRating None;
            SetIsEnforcedRating false;
            HandleSubmitRating (id task) rating (UseRatingRender.cells r)])).
Proof.
  intros Hc. unfold UseRatingRender.onSubmitRating. rewrite Hc.
  unfold UseRatingRender.bindR, UseRatingRender.setIsRatingDialogOpen,
    UseRatingRender.setCurrentTaskForRating,
    UseRatingRender.setIsEnforcedRating,
    UseRatingRender.awaitHandleSubmitRating, UseRatingRender.retR, cleared.
  simpl. rewrite <- !app_assoc. simpl.
  now destruct (handleSubmitRating _ _ _).
Qed.

(** C3, as amended.  With a current task set, [onSubmitRating] makes the
    three clearing setter calls (dialog closed, current task cleared,
    enforced flag cleared), in that order, and only then calls the external
    submission function: the call is the last event.  The cleared values
    are queued, and they are what the next render shows.  The cells of the
    render that makes the call are unchanged: the state in force at the
    call is still the one of that render, with its current task. *)
Theorem submit_queues_clearing_before_calling :
  forall (handleSubmitRating : SubmitFn) (rating : Q)
         (r : UseRatingRender.Render) (task : TaskType),
    currentTaskForRating (UseRatingRender.cells r) = Some task ->
    let r' := snd (UseRatingRender.onSubmitRating handleSubmitRating rating r)
    in
    UseRatingRender.events r'
    = UseRatingRender.events r
      ++ [SetIsRatingDialogOpen false;
          SetCurrentTaskForRating None;
          SetIsEnforcedRating false;
          HandleSubmitRating (id task) rating (UseRatingRender.cells r)]
    /\ UseRatingRender.cells r' = UseRatingRender.cells r
    /\ UseRatingRender.queued r' = cleared
    /\ UseRatingRender.cells (UseRatingRender.rerender r') = cleared.
Proof.
  intros handleSubmitRating rating r task Hc r'. subst r'.
  rewrite (render_submit_with_task _ _ _ _ Hc). simpl. auto.
Qed.

(** C3 as stated fails: on a render that shows the prompt open and
    enforced on a task, the state in force when the submission function is
    called is not closed and cleared. *)
Lemma submit_call_sees_open_prompt :
  ~ (exists seen : HookState,
       UseRatingRender.events
         (snd (UseRatingRender.onSubmitRating alwaysRejects 4
                 UseRatingRender.sampleRender))
       = [SetIsRatingDialogOpen false; SetCurrentTaskForRating None;
          SetIsEnforcedRating false; HandleSubmitRating "t1" 4 seen]
       /\ isRatingDialogOpen seen = false
       /\ currentTaskForRating seen = None
       /\ isEnforcedRating seen = false).
Proof.
  intros (seen & Hev & Hopen & _).
  rewrite (render_submit_with_task alwaysRejects 4
             UseRatingRender.sampleRender sampleTask eq_refl) in Hev.
  simpl in Hev. injection Hev as <-. discriminate Hopen.
Qed.

(** C4.  Without a current task, [onSubmitRating] answers false, makes no
    call to the external submission function and leaves the prompt state as
    it was: the world, trace included, is unchanged. *)
Theorem submit_without_task :
  forall (handleSubmitRating : SubmitFn) (rating : Q) (w : World),
    currentTaskForRating (hook w) = None ->
    onSubmitRating handleSubmitRating rating w = (false, w).
Proof.
  intros handleSubmitRating rating w Hc.
  now apply submit_guard.
Qed.

(** C5.  With a current task set, [onSubmitRating] answers what the
    external submission function answers when its promise is fulfilled, and
    answers false when the promise is rejected. *)
Theorem submit_propagates_result :
  forall (handleSubmitRating : SubmitFn) (rating : Q) (w : World)
         (task : TaskType),
    currentTaskForRating (hook w) = Some task ->
    let settled := handleSubmitRating cleared (id task) rating in
    let answer := fst (onSubmitRating handleSubmitRating rating w) in
    (forall result, settled = Fulfilled result -> answer = result)
    /\ (settled = Rejected -> answer = false).
Proof.
  intros handleSubmitRating rating w task Hc settled answer.
  subst settled answer. rewrite (submit_with_task _ _ _ _ Hc). simpl.
  split; [intros result Hs | intros Hs]; now rewrite Hs.
Qed.

(** C6.  A second call of [checkForTasksNeedingRating] with the same
    arguments gives the same answer, selects the same current task, and
    leaves the prompt state as the first call left it. *)
Theorem check_idempotent :
  forall (tasks appliedTasks : list TaskType) (user : option AuthUser)
         (w : World),
    let first := checkForTasksNeedingRating tasks appliedTasks user w in
    let second :=
      checkForTasksNeedingRating tasks appliedTasks user (snd first) in
    fst second = fst first
    /\ currentTaskForRating (hook (snd second))
       = currentTaskForRating (hook (snd first))
    /\ hook (snd second) = hook (snd first).
Proof.
  intros tasks appliedTasks user w first second. subst first second.
  destruct (find (doerNeedsRating user) appliedTasks) as [t|] eqn:Hd.
  - rewrite !(check_found_doer _ _ _ _ _ Hd). simpl. auto.
  - destruct (find requestorNeedsRating tasks) as [t|] eqn:Hr.
    + rewrite !(check_found_requestor _ _ _ _ _ Hd Hr). simpl. auto.
    + rewrite !(check_not_found _ _ _ _ Hd Hr). simpl. auto.
Qed.

Lemma synchronized_cleared : synchronized cleared.
Proof.
  unfold synchronized, cleared. simpl.
  repeat split; try discriminate. intros H. now contradiction H.
Qed.

Lemma synchronized_selected (t : TaskType) :
  synchronized (mkHook true true (Some t)).
Proof.
  unfold synchronized. simpl. repeat split; trivial. discriminate.
Qed.

(** C10.  In every state reached from the initial one through calls of
    [checkForTasksNeedingRating] and [onSubmitRating], the dialog is open
    exactly when the prompt is enforced, and exactly when a current task is
    set. *)
Theorem reachable_synchronized :
  forall w : World, Reachable w -> synchronized (hook w).
Proof.
  intros w Hw. induction Hw as [|tasks appliedTasks user w Hw IH
                                |handleSubmitRating rating w Hw IH].
  - exact synchronized_cleared.
  - destruct (check_cases tasks appliedTasks user w) as [(t & -> & _)| ->].
    + apply synchronized_selected.
    + exact IH.
  - destruct (currentTaskForRating (hook w)) as [task|] eqn:Hc.
    + rewrite (submit_with_task _ _ _ _ Hc). exact synchronized_cleared.
    + now rewrite (submit_guard _ _ _ Hc).
Qed.

(** ** Concrete runs *)

(** The scenario of the specification: the current user is the doer of a
    task verified by both sides and not yet rated by the doer. *)
Example doer_prompt_opens_enforced :
  checkForTasksNeedingRating [] [sampleTask] (Some (mkUser "u1"))
    (mkWorld initialState [])
  = (true,
     mkWorld (mkHook true true (Some sampleTask))
       [SetCurrentTaskForRating (Some sampleTask);
        SetIsRatingDialogOpen true; SetIsEnforcedRating true]).
Proof. reflexivity. Qed.

(** Another user is not prompted as a doer, but the same task in the
    visible list prompts for the requestor rating. *)
Example requestor_prompt_after_doer_pass :
  fst (checkForTasksNeedingRating [] [sampleTask] (Some (mkUser "u2"))
         (mkWorld initialState [])) = false
  /\ hook (snd (checkForTasksNeedingRating [sampleTask] [sampleTask]
                  (Some (mkUser "u2")) (mkWorld initialState [])))
     = mkHook true true (Some sampleTask).
Proof. split; reflexivity. Qed.

Lemma submit_queues_clearing_before_calling_witness :
  let r' :=
    snd (UseRatingRender.onSubmitRating alwaysRejects 4
           UseRatingRender.sampleRender) in
  UseRatingRender.events r'
  = [SetIsRatingDialogOpen false; SetCurrentTaskForRating None;
     SetIsEnforcedRating false;
     HandleSubmitRating "t1" 4 (mkHook true true (Some sampleTask))]
  /\ UseRatingRender.cells r' = mkHook true true (Some sampleTask)
  /\ UseRatingRender.queued r' = cleared
  /\ UseRatingRender.cells (UseRatingRender.rerender r') = cleared.
Proof.
  exact (submit_queues_clearing_before_calling alwaysRejects 4
           UseRatingRender.sampleRender sampleTask eq_refl).
Defined.

Lemma submit_without_task_witness :
  onSubmitRating alwaysRejects 4 (mkWorld initialState [])
  = (false, mkWorld initialState []).
Proof.
  apply (submit_without_task alwaysRejects 4 (mkWorld initialState [])).
  reflexivity.
Defined.

Lemma submit_propagates_result_witness :
  fst (onSubmitRating alwaysRejects 4 sampleSelected) = false.
Proof.
  apply (proj2 (submit_propagates_result alwaysRejects 4 sampleSelected
                  sampleTask eq_refl)).
  reflexivity.
Defined.

Lemma reachable_synchronized_witness :
  synchronized
    (hook (snd (onSubmitRating alwaysRejects 4
                  (snd (checkForTasksNeedingRating [] [sampleTask]
                          (Some (mkUser "u1")) (mkWorld initialState [])))))).
Proof.
  apply reachable_synchronized.
  apply reach_submit, reach_check, reach_init.
Defined.

End RatingEnforcement.

(* ================================================================== *)
(** * Properties of the level computation *)
(* ================================================================== *)

Section Levels.

Import UserStatistics.

Lemma getUserLevel_cases (n : Z) :
  getUserLevel n = mkLevel "Expert" "Expert" "bg-purple-600"
  \/ getUserLevel n = mkLevel "Advanced" "Advanced" "bg-blue-600"
  \/ getUserLevel n = mkLevel "Intermediate" "Intermediate" "bg-green-600"
  \/ getUserLevel n = mkLevel "Beginner+" "Beginner+" "bg-yellow-600"
  \/ getUserLevel n = mkLevel "Beginner" "Beginner" "bg-gray-600".
Proof.
  unfold getUserLevel.
  destruct (n >=? 50)%Z; [tauto|].
  destruct (n >=? 20)%Z; [tauto|].
  destruct (n >=? 10)%Z; [tauto|].
  destruct (n >=? 5)%Z; tauto.
Qed.

(** C9.  For a non-negative number of completed tasks, the level name is
    one of "Beginner", "Beginner+", "Intermediate", "Advanced", "Expert",
    and is neither "Regular" nor "Pro"; unless the name is "Beginner", the
    denominator of the progress display is the default 100, and so is the
    divisor of the progress value. *)
Theorem level_names_and_progress_default :
  forall completedTasks : Z,
    (0 <= completedTasks)%Z ->
    let userLevel := getUserLevel completedTasks in
    In (level userLevel) levelNames
    /\ level userLevel <> "Regular"
    /\ level userLevel <> "Pro"
    /\ (level userLevel <> "Beginner" ->
        progressDenominator userLevel = 100%Z
        /\ progressValue completedTasks userLevel
           = (inject_Z completedTasks / 100) * 100).
Proof.
  intros n _ userLevel. subst userLevel.
  destruct (getUserLevel_cases n) as [H|[H|[H|[H|H]]]]; rewrite H;
    unfold levelNames, progressDenominator, progressValue; simpl;
    (split; [tauto|]); (split; [discriminate|]); (split; [discriminate|]);
    intros Hne; try (split; reflexivity).
  now contradiction Hne.
Qed.

Lemma level_names_and_progress_default_witness :
  let userLevel := getUserLevel 7 in
  In (level userLevel) levelNames
  /\ level userLevel <> "Regular"
  /\ level userLevel <> "Pro"
  /\ (level userLevel <> "Beginner" ->
      progressDenominator userLevel = 100%Z
      /\ progressValue 7 userLevel = (inject_Z 7 / 100) * 100).
Proof.
  apply (level_names_and_progress_default 7). lia.
Defined.

End Levels.

(* ================================================================== *)
(** * Properties of the leaderboard aggregation *)
(* ================================================================== *)

Section LeaderboardAggregation.

Import Leaderboard.

(** ** The insertion-ordered map *)

Lemma map_get_set_same (k : string) (v : Acc) (m : JsMap) :
  map_get k (map_set k v m) = Some v.
Proof.
  induction m as [|[k' v'] m IH]; simpl.
  - now rewrite String.eqb_refl.
  - destruct (k' =? k) eqn:E; simpl.
    + now rewrite String.eqb_refl.
    + now rewrite E.
Qed.

Lemma map_get_set_other (k k' : string) (v : Acc) (m : JsMap) :
  k <> k' -> map_get k (map_set k' v m) = map_get k m.
Proof.
  intros Hne. induction m as [|[k0 v0] m IH]; simpl.
  - destruct (k' =? k) eqn:E; trivial.
    apply String.eqb_eq in E. congruence.
  - destruct (k0 =? k') eqn:E; simpl.
    + apply String.eqb_eq in E. subst k0.
      destruct (k' =? k) eqn:E'; trivial.
      apply String.eqb_eq in E'. congruence.
    + now rewrite IH.
Qed.

Lemma map_get_in (k : string) (v : Acc) (m : JsMap) :
  map_get k m = Some v -> In (k, v) m.
Proof.
  induction m as [|[k' v'] m IH]; simpl; [discriminate|].
  destruct (k' =? k) eqn:E.
  - apply String.eqb_eq in E. intros [= ->]. left. congruence.
  - intros H. right. now apply IH.
Qed.

Lemma map_get_none_keys (k : string) (m : JsMap) :
  map_get k m = None <-> ~ In k (keys m).
Proof.
  induction m as [|[k' v'] m IH]; simpl.
  - tauto.
  - destruct (k' =? k) eqn:E.
    + apply String.eqb_eq in E. split; [discriminate | tauto].
    + apply String.eqb_neq in E. rewrite IH. tauto.
Qed.

Lemma in_map_get (k : string) (v : Acc) (m : JsMap) :
  NoDup (keys m) -> In (k, v) m -> map_get k m = Some v.
Proof.
  induction m as [|[k' v'] m IH]; simpl; [tauto|].
  intros Hnd [Heq|Hin].
  - injection Heq as -> ->. now rewrite String.eqb_refl.
  - inversion_clear Hnd as [|? ? Hk' Hnd'].
    destruct (k' =? k) eqn:E.
    + apply String.eqb_eq in E. subst k'. exfalso. apply Hk'.
      change k with (fst (k, v)). now apply in_map.
    + now apply IH.
Qed.

Lemma keys_map_set (k : string) (v : Acc) (m : JsMap) :
  keys (map_set k v m)
  = if map_has k m then keys m else keys m ++ [k].
Proof.
  unfold map_has. induction m as [|[k' v'] m IH]; simpl; trivial.
  destruct (k' =? k) eqn:E; simpl.
  - apply String.eqb_eq in E. now subst.
  - rewrite IH. now destruct (map_get k m).
Qed.

Lemma NoDup_keys_map_set (k : string) (v : Acc) (m : JsMap) :
  NoDup (keys m) -> NoDup (keys (map_set k v m)).
Proof.
  intros Hnd. rewrite keys_map_set. unfold map_has.
  destruct (map_get k m) eqn:E; trivial.
  apply map_get_none_keys in E.
  apply NoDup_app; trivial.
  - constructor; [simpl; tauto | constructor].
  - intros x Hx [<-|[]]. contradiction.
Qed.

Lemma truthy_some (x : option string) (k : string) :
  truthy x = Some k <-> x = Some k /\ k <> "".
Proof.
  unfold truthy. destruct x as [s|]; [|split; [discriminate | intros [? _]; discriminate]].
  destruct (s =? "") eqn:E.
  - apply String.eqb_eq in E. subst s.
    split; [discriminate|]. intros [[= <-] Hne]. now contradiction Hne.
  - apply String.eqb_neq in E. split.
    + intros [= <-]. auto.
    + intros [[= <-] _]. reflexivity.
Qed.

(** ** Counting completed tasks *)

Lemma completedCount_app (role : Role) (l1 l2 : list TaskRow) (k : string) :
  completedCount role (l1 ++ l2) k
  = (completedCount role l1 k + completedCount role l2 k)%nat.
Proof. unfold completedCount. now rewrite filter_app, length_app. Qed.

Lemma completedCount_single_other (role : Role) (t : TaskRow) (k : string) :
  roleId role t <> Some k -> completedCount role [t] k = 0%nat.
Proof.
  unfold completedCount. simpl. intros Hne.
  destruct (roleId role t) as [k'|]; trivial.
  destruct (k' =? k) eqn:E; trivial.
  apply String.eqb_eq in E. congruence.
Qed.

Lemma completedCount_single_same (role : Role) (t : TaskRow) (k : string) :
  roleId role t = Some k ->
  completedCount role [t] k = if isCompleted t then 1%nat else 0%nat.
Proof.
  unfold completedCount. simpl. intros ->. rewrite String.eqb_refl. simpl.
  now destruct (isCompleted t).
Qed.

Lemma completedCount_absent (role : Role) (l : list TaskRow) (k : string) :
  (forall t, In t l -> roleId role t <> Some k) ->
  completedCount role l k = 0%nat.
Proof.
  induction l as [|t l IH]; intros H; trivial.
  change (t :: l) with ([t] ++ l). rewrite completedCount_app.
  rewrite completedCount_single_other by (apply H; now left).
  apply IH. intros t' Ht'. apply H. now right.
Qed.

Lemma Counted_nil (role : Role) : Counted role [] [].
Proof.
  split; [constructor|]. intros k. simpl. right. intros t [].
Qed.

(** One step of the first pass keeps the map consistent. *)
Lemma Counted_countTask (role : Role) (seen : list TaskRow) (m : JsMap)
    (t : TaskRow) :
  Counted role seen m -> Counted role (seen ++ [t]) (countTask role m t).
Proof.
  intros [Hnd Hm]. unfold countTask.
  destruct (truthy (roleId role t)) as [k0|] eqn:Ht.
  - apply truthy_some in Ht. destruct Ht as [Hid Hk0].
    assert (Hother : forall k, k <> k0 ->
              completedCount role (seen ++ [t]) k = completedCount role seen k).
    { intros k Hk. rewrite completedCount_app, completedCount_single_other.
      - lia.
      - congruence. }
    assert (Hsame : completedCount role (seen ++ [t]) k0
                    = (completedCount role seen k0
                       + if isCompleted t then 1 else 0)%nat).
    { now rewrite completedCount_app, (completedCount_single_same _ _ _ Hid). }
    assert (Hrest : forall m', NoDup (keys m') ->
              (forall k, k <> k0 -> map_get k m' = map_get k m) ->
              (exists v, map_get k0 m' = Some v
                 /\ acc_tasksCount v
                    = Z.of_nat (completedCount role (seen ++ [t]) k0)
                 /\ acc_reward v
                    = (100 * Z.of_nat (completedCount role (seen ++ [t]) k0))%Z) ->
              Counted role (seen ++ [t]) m').
    { intros m' Hnd' Hget (v & Hv & Htc & Hrw). split; trivial.
      intros k. destruct (String.eqb_spec k k0) as [->|Hk].
      - rewrite Hv. auto.
      - rewrite (Hget k Hk), (Hother k Hk). specialize (Hm k).
        destruct (map_get k m); trivial.
        destruct Hm as [Hm|Hm]; [now left|right].
        intros t' Hin. apply in_app_or in Hin. destruct Hin as [Hin|[<-|[]]].
        + now apply Hm.
        + congruence. }
    pose proof (Hm k0) as Hk0m.
    destruct (map_get k0 m) as [existing|] eqn:Hget.
    + destruct Hk0m as (_ & Htc & Hrw).
      destruct (isCompleted t) eqn:Hc; rewrite Nat.add_comm in Hsame;
        simpl in Hsame.
      * apply Hrest.
        -- now apply NoDup_keys_map_set.
        -- intros k Hk. now apply map_get_set_other.
        -- eexists. split; [apply map_get_set_same|].
           cbn [acc_tasksCount acc_reward].
           rewrite Hsame, Htc, Hrw. lia.
      * apply Hrest; trivial.
        exists existing. rewrite Hsame, Htc, Hrw. auto.
    + destruct Hk0m as [Hk0m|Hk0m]; [contradiction|].
      apply Hrest.
      * now apply NoDup_keys_map_set.
      * intros k Hk. now apply map_get_set_other.
      * eexists. split; [apply map_get_set_same|].
        cbn [acc_tasksCount acc_reward].
        rewrite Hsame, (completedCount_absent _ _ _ Hk0m).
        destruct (isCompleted t); simpl; lia.
  - split; trivial. intros k.
    assert (Hne : k <> "" -> roleId role t <> Some k).
    { intros Hk Hid. assert (truthy (roleId role t) = Some k) as Habs
        by (apply truthy_some; auto). congruence. }
    specialize (Hm k). destruct (map_get k m).
    + destruct Hm as (Hk & Htc & Hrw).
      rewrite completedCount_app, completedCount_single_other by auto.
      rewrite Nat.add_0_r. auto.
    + destruct (String.eqb_spec k "") as [->|Hk]; [now left|].
      destruct Hm as [Hm|Hm]; [contradiction|right].
      intros t' Hin. apply in_app_or in Hin. destruct Hin as [Hin|[<-|[]]].
      * now apply Hm.
      * now apply Hne.
Qed.

Lemma Counted_first_pass (role : Role) (l seen : list TaskRow) (m : JsMap) :
  Counted role seen m ->
  Counted role (seen ++ l) (fold_left (countTask role) l m).
Proof.
  revert seen m. induction l as [|t l IH]; intros seen m H; simpl.
  - now rewrite app_nil_r.
  - replace (seen ++ t :: l) with ((seen ++ [t]) ++ l)
      by now rewrite <- app_assoc.
    apply IH. now apply Counted_countTask.
Qed.

(** The filter of the doer query removes no row that counts for a user. *)
Lemma selectTasks_mentions (role : Role) (tasks : list TaskRow)
    (t : TaskRow) (k : string) :
  roleId role t = Some k -> In t tasks -> In t (selectTasks role tasks).
Proof.
  destruct role; simpl; trivial.
  intros Hid Hin. apply filter_In. split; trivial. now rewrite Hid.
Qed.

Lemma completedCount_selectTasks (role : Role) (tasks : list TaskRow)
    (k : string) :
  completedCount role (selectTasks role tasks) k = completedCount role tasks k.
Proof.
  destruct role; simpl; trivial.
  unfold completedCount. f_equal.
  induction tasks as [|t tasks IH]; simpl; trivial.
  destruct (doer_id t) as [k'|] eqn:E; simpl; rewrite ?E; trivial.
  destruct ((k' =? k) && isCompleted t); simpl in IH |- *; now rewrite IH.
Qed.

Lemma Counted_selectTasks (role : Role) (tasks : list TaskRow) (m : JsMap) :
  Counted role (selectTasks role tasks) m -> Counted role tasks m.
Proof.
  intros [Hnd Hm]. split; trivial. intros k. specialize (Hm k).
  rewrite completedCount_selectTasks in Hm.
  destruct (map_get k m); trivial.
  destruct Hm as [Hm|Hm]; [now left|right].
  intros t Hin Hid. apply (Hm t); trivial.
  now apply (selectTasks_mentions role tasks t k).
Qed.

(** One step of the second pass keeps the map consistent. *)
Lemma Counted_attachRating (role : Role) (seen : list TaskRow) (m : JsMap)
    (r : RatingRow) :
  Counted role seen m -> Counted role seen (attachRating role m r).
Proof.
  intros [Hnd Hm]. unfold attachRating.
  destruct (truthy (user_id r)) as [k0|] eqn:Hu; [|now split].
  destruct (roleRating role r) as [q|]; [|now split].
  apply truthy_some in Hu. destruct Hu as [_ Hk0].
  pose proof (Hm k0) as Hk0m.
  destruct (map_get k0 m) as [existing|] eqn:Hget.
  - split; [now apply NoDup_keys_map_set|]. intros k.
    destruct (String.eqb_spec k k0) as [->|Hk].
    + now rewrite map_get_set_same.
    + rewrite map_get_set_other by trivial. apply Hm.
  - destruct Hk0m as [Hk0m|Hk0m]; [contradiction|].
    split; [now apply NoDup_keys_map_set|]. intros k.
    destruct (String.eqb_spec k k0) as [->|Hk].
    + rewrite map_get_set_same. cbn [acc_tasksCount acc_reward].
      rewrite (completedCount_absent _ _ _ Hk0m). simpl. auto.
    + rewrite map_get_set_other by trivial. apply Hm.
Qed.

Lemma Counted_second_pass (role : Role) (seen : list TaskRow)
    (rs : list RatingRow) (m : JsMap) :
  Counted role seen m -> Counted role seen (fold_left (attachRating role) rs m).
Proof.
  revert m. induction rs as [|r rs IH]; intros m H; simpl; trivial.
  apply IH. now apply Counted_attachRating.
Qed.

(** The map is consistent with the task table when both passes are over. *)
Lemma Counted_accumulate (role : Role) (tasks : list TaskRow)
    (ratings : list RatingRow) :
  Counted role tasks (accumulate role tasks ratings).
Proof.
  unfold accumulate. apply Counted_second_pass, Counted_selectTasks.
  apply (Counted_first_pass role (selectTasks role tasks) [] []).
  apply Counted_nil.
Qed.

(** ** Sorting *)

Lemma compareFn_rankedBefore (a b : LeaderboardUser) :
  Qle_bool (compareFn a b) 0 = true <-> rankedBefore a b.
Proof.
  rewrite Qle_bool_iff. unfold compareFn, rankedBefore.
  destruct (Z.eqb_spec (reward b) (reward a)) as [E|E]; simpl.
  - rewrite E. split.
    + intros H. right. split; trivial. lra.
    + intros [H|[_ H]]; [lia | lra].
  - change 0%Q with (inject_Z 0). rewrite <- Zle_Qle. split.
    + intros H. left. lia.
    + intros [H|[H _]]; [lia | congruence].
Qed.

Lemma rankedBefore_total (a b : LeaderboardUser) :
  ~ rankedBefore a b -> rankedBefore b a.
Proof.
  unfold rankedBefore. intros H.
  destruct (Z.lt_trichotomy (reward a) (reward b)) as [Hlt|[Heq|Hgt]].
  - now left.
  - right. split; [congruence|].
    destruct (Qlt_le_dec (ratingOrZero a) (ratingOrZero b)) as [Hq|Hq].
    + now apply Qlt_le_weak.
    + exfalso. apply H. right. auto.
  - exfalso. apply H. now left.
Qed.

Lemma rankedBefore_trans (a b c : LeaderboardUser) :
  rankedBefore a b -> rankedBefore b c -> rankedBefore a c.
Proof.
  unfold rankedBefore.
  intros [H1|[H1 Q1]] [H2|[H2 Q2]].
  - left. lia.
  - left. lia.
  - left. lia.
  - right. split; [congruence|]. now apply Qle_trans with (ratingOrZero b).
Qed.

Lemma insertBy_perm {A : Type} (cmp : A -> A -> Q) (x : A) (l : list A) :
  Permutation (insertBy cmp x l) (x :: l).
Proof.
  induction l as [|y l IH]; simpl; [reflexivity|].
  destruct (Qle_bool (cmp x y) 0); [reflexivity|].
  rewrite IH. apply perm_swap.
Qed.

Lemma sort_perm {A : Type} (cmp : A -> A -> Q) (l : list A) :
  Permutation (sort cmp l) l.
Proof.
  induction l as [|x l IH]; simpl; [reflexivity|].
  unfold sort in IH |- *. simpl. rewrite insertBy_perm. now constructor.
Qed.

Lemma insertBy_sorted (x : LeaderboardUser) (l : list LeaderboardUser) :
  StronglySorted rankedBefore l ->
  StronglySorted rankedBefore (insertBy compareFn x l).
Proof.
  induction l as [|y l IH]; simpl; intros Hs.
  - repeat constructor.
  - inversion_clear Hs as [|? ? Hl Hy].
    destruct (Qle_bool (compareFn x y) 0) eqn:E.
    + apply compareFn_rankedBefore in E.
      constructor; [now constructor|].
      constructor; trivial.
      eapply Forall_impl; [|exact Hy].
      intros z Hz. now apply rankedBefore_trans with y.
    + assert (Hyx : rankedBefore y x).
      { apply rankedBefore_total. rewrite <- compareFn_rankedBefore. congruence. }
      constructor; [now apply IH|].
      apply Forall_forall. intros z Hz.
      apply (Permutation_in _ (insertBy_perm compareFn x l)) in Hz.
      destruct Hz as [<-|Hz]; trivial.
      rewrite Forall_forall in Hy. now apply Hy.
Qed.

Lemma sort_sorted (l : list LeaderboardUser) :
  StronglySorted rankedBefore (sort compareFn l).
Proof.
  induction l as [|x l IH]; simpl; [constructor|].
  now apply insertBy_sorted.
Qed.

Lemma firstn_sorted {A : Type} (R : A -> A -> Prop) (n : nat) (l : list A) :
  StronglySorted R l -> StronglySorted R (firstn n l).
Proof.
  revert n. induction l as [|x l IH]; intros [|n] Hs; simpl;
    try constructor.
  - inversion_clear Hs. now apply IH.
  - inversion_clear Hs as [|? ? _ Hx].
    apply Forall_forall. intros z Hz. rewrite Forall_forall in Hx.
    apply Hx. revert Hz. clear. revert n.
    induction l as [|y l IH]; intros [|n]; simpl; try tauto.
    intros [->|Hz]; [now left|right]. now apply (IH n).
Qed.

Lemma in_firstn {A : Type} (n : nat) (l : list A) (x : A) :
  In x (firstn n l) -> In x l.
Proof.
  intros H. rewrite <- (firstn_skipn n l). apply in_or_app. now left.
Qed.

Lemma sorted_after {A : Type} (R : A -> A -> Prop) (l1 l2 : list A) (x : A) :
  StronglySorted R (l1 ++ x :: l2) -> Forall (R x) l2.
Proof.
  induction l1 as [|y l1 IH]; simpl; intros H; inversion_clear H; auto.
Qed.

(** ** Sorting the entries is sorting the accumulators *)

Lemma compareFn_resolve (profiles : ProfileStore) (x y : string * Acc) :
  compareFn (resolve profiles x) (resolve profiles y) = compareAcc x y.
Proof. destruct x, y. reflexivity. Qed.

Lemma insertBy_map {A B : Type} (f : A -> B) (cmpA : A -> A -> Q)
    (cmpB : B -> B -> Q) (x : A) (l : list A) :
  (forall a b, cmpB (f a) (f b) = cmpA a b) ->
  insertBy cmpB (f x) (map f l) = map f (insertBy cmpA x l).
Proof.
  intros H. induction l as [|y l IH]; simpl; trivial.
  rewrite H. destruct (Qle_bool (cmpA x y) 0); simpl; trivial.
  now rewrite IH.
Qed.

Lemma sort_map {A B : Type} (f : A -> B) (cmpA : A -> A -> Q)
    (cmpB : B -> B -> Q) (l : list A) :
  (forall a b, cmpB (f a) (f b) = cmpA a b) ->
  sort cmpB (map f l) = map f (sort cmpA l).
Proof.
  intros H. induction l as [|x l IH]; trivial.
  unfold sort in IH |- *. simpl. rewrite IH. now apply insertBy_map.
Qed.

(** The output is the image of the first ten accumulators in rank order. *)
Lemma top_resolve (role : Role) (tasks : list TaskRow)
    (ratings : list RatingRow) (profiles : ProfileStore) :
  top role tasks ratings profiles
  = map (resolve profiles)
        (firstn 10 (sort compareAcc (accumulate role tasks ratings))).
Proof.
  unfold top, slice0, ranked.
  rewrite (sort_map (resolve profiles) compareAcc compareFn)
    by apply compareFn_resolve.
  apply firstn_map.
Qed.

(** Every listed entry comes from an accumulator of the map. *)
Lemma top_origin (role : Role) (tasks : list TaskRow)
    (ratings : list RatingRow) (profiles : ProfileStore)
    (e : LeaderboardUser) :
  In e (top role tasks ratings profiles) ->
  exists k v, In (k, v) (accumulate role tasks ratings)
              /\ e = resolve profiles (k, v).
Proof.
  rewrite top_resolve. intros H. apply in_map_iff in H.
  destruct H as ([k v] & <- & Hin). exists k, v. split; trivial.
  apply in_firstn in Hin.
  now apply (Permutation_in _ (sort_perm compareAcc _)) in Hin.
Qed.

(** C2.  For each role, the output of the aggregation ([topCreators] for
    [Creator], [topDoers] for [Doer]) is such that the reward of every entry
    is 100 times the number of completed tasks of its user in that role, the
    entries are in non-increasing order of reward and, at equal reward, in
    non-increasing order of rating average with an absent average counted
    as 0, and there are at most 10 entries. *)
Theorem leaderboard_rewards_sorted_top10 :
  forall (role : Role) (tasks : list TaskRow) (ratings : list RatingRow)
         (profiles : ProfileStore),
    let out := top role tasks ratings profiles in
    (forall e, In e out ->
       reward e = (100 * Z.of_nat (completedCount role tasks (id e)))%Z)
    /\ StronglySorted rankedBefore out
    /\ (List.length out <= 10)%nat.
Proof.
  intros role tasks ratings profiles out. subst out. repeat split.
  - intros e He. apply top_origin in He. destruct He as (k & v & Hin & ->).
    destruct (Counted_accumulate role tasks ratings) as [Hnd Hm].
    specialize (Hm k). rewrite (in_map_get _ _ _ Hnd Hin) in Hm.
    simpl. tauto.
  - apply firstn_sorted, sort_sorted.
  - apply firstn_le_length.
Qed.

(** ** A user with a rating and no task *)

Lemma countTask_untouched (role : Role) (m : JsMap) (t : TaskRow)
    (u : string) :
  roleId role t <> Some u ->
  map_get u (countTask role m t) = map_get u m.
Proof.
  intros Hne. unfold countTask.
  destruct (truthy (roleId role t)) as [k0|] eqn:Ht; trivial.
  apply truthy_some in Ht. destruct Ht as [Hid _].
  assert (u <> k0) by congruence.
  destruct (map_get k0 m); [destruct (isCompleted t)|]; trivial;
    now apply map_get_set_other.
Qed.

Lemma first_pass_untouched (role : Role) (l : list TaskRow) (m : JsMap)
    (u : string) :
  (forall t, In t l -> roleId role t <> Some u) ->
  map_get u (fold_left (countTask role) l m) = map_get u m.
Proof.
  revert m. induction l as [|t l IH]; intros m H; simpl; trivial.
  rewrite IH by (intros t' Ht'; apply H; now right).
  apply countTask_untouched, H. now left.
Qed.

Lemma attachRating_step (role : Role) (m : JsMap) (r0 : RatingRow)
    (u : string) (r : Q) :
  u <> "" ->
  (forall r', user_id r0 = Some u -> roleRating role r0 = Some r' -> r' = r) ->
  map_get u m = None \/ map_get u m = Some (ratedOnly u r) ->
  (map_get u (attachRating role m r0) = map_get u m
   \/ map_get u (attachRating role m r0) = Some (ratedOnly u r))
  /\ (user_id r0 = Some u -> roleRating role r0 = Some r ->
      map_get u (attachRating role m r0) = Some (ratedOnly u r)).
Proof.
  intros Hu Hsame Hm. unfold attachRating.
  destruct (truthy (user_id r0)) as [k0|] eqn:Ht.
  - apply truthy_some in Ht. destruct Ht as [Hid Hk0].
    destruct (roleRating role r0) as [q|] eqn:Hq.
    + destruct (String.eqb_spec u k0) as [<-|Hne].
      * rewrite (Hsame q Hid eq_refl).
        assert (map_get u
                  match map_get u m with
                  | Some existing =>
                      map_set u (mkAcc (acc_id existing) (Some r)
                                   (acc_tasksCount existing)
                                   (acc_reward existing)) m
                  | None => map_set u (mkAcc u (Some r) 0 0) m
                  end = Some (ratedOnly u r)) as Hgoal.
        { destruct Hm as [Hm|Hm]; rewrite Hm; now rewrite map_get_set_same. }
        split; [now right | now intros _ _].
      * assert (Hkeep : map_get u
                  match map_get k0 m with
                  | Some existing =>
                      map_set k0 (mkAcc (acc_id existing) (Some q)
                                    (acc_tasksCount existing)
                                    (acc_reward existing)) m
                  | None => map_set k0 (mkAcc k0 (Some q) 0 0) m
                  end = map_get u m).
        { destruct (map_get k0 m); now apply map_get_set_other. }
        split; [now left | intros Hid'; congruence].
    + split; [now left | discriminate].
  - split; [now left|]. intros Hid _.
    assert (truthy (user_id r0) = Some u) by (apply truthy_some; auto).
    congruence.
Qed.

Lemma second_pass_attaches (role : Role) (rs : list RatingRow) (m : JsMap)
    (u : string) (r : Q) :
  u <> "" ->
  (forall rec' r', In rec' rs -> user_id rec' = Some u ->
                   roleRating role rec' = Some r' -> r' = r) ->
  map_get u m = None \/ map_get u m = Some (ratedOnly u r) ->
  map_get u m = Some (ratedOnly u r)
  \/ (exists rec, In rec rs /\ user_id rec = Some u
                  /\ roleRating role rec = Some r) ->
  map_get u (fold_left (attachRating role) rs m) = Some (ratedOnly u r).
Proof.
  intros Hu. revert m. induction rs as [|r0 rs IH]; intros m Hsame Hm Hex; simpl.
  - destruct Hex as [Hex|(rec & [] & _)]. exact Hex.
  - destruct (attachRating_step role m r0 u r Hu) as [Hkeep Hset]; trivial.
    { intros r' Hid Hq. apply (Hsame r0 r'); trivial. now left. }
    apply IH.
    + intros rec' r' Hin. apply Hsame. now right.
    + destruct Hkeep as [Hkeep|Hkeep]; rewrite Hkeep; auto.
    + destruct Hex as [Hex|(rec & [<-|Hin] & Hid & Hq)].
      * left. destruct Hkeep as [Hkeep|Hkeep]; congruence.
      * left. now apply Hset.
      * right. exists rec. auto.
Qed.

Lemma Qpositive_lt (q : Q) : Qpositive q = true <-> (0 < q)%Q.
Proof.
  unfold Qpositive. rewrite Qlt_alt.
  destruct (0 ?= q)%Q; split; congruence.
Qed.

(** The map holds the rating-only accumulator of such a user. *)
Lemma accumulate_ratedOnly (role : Role) (tasks : list TaskRow)
    (ratings : list RatingRow) (u : string) (rec : RatingRow) (r : Q) :
  u <> "" ->
  In rec ratings -> user_id rec = Some u -> roleRating role rec = Some r ->
  (0 < r)%Q ->
  (forall rec' r', In rec' ratings -> user_id rec' = Some u ->
                   roleRating role rec' = Some r' -> (0 < r')%Q -> r' = r) ->
  (forall t, In t tasks -> roleId role t <> Some u) ->
  map_get u (accumulate role tasks ratings) = Some (ratedOnly u r).
Proof.
  intros Hu Hin Hid Hq Hpos Hsame Hnone. unfold accumulate.
  apply second_pass_attaches; trivial.
  - intros rec' r' Hin' Hid' Hq'. unfold selectRatings in Hin'.
    apply filter_In in Hin'. destruct Hin' as [Hin' Hp].
    rewrite Hq' in Hp. apply Qpositive_lt in Hp.
    now apply (Hsame rec' r').
  - left. rewrite first_pass_untouched; trivial.
    intros t Ht. apply Hnone.
    destruct role; simpl in Ht; trivial. now apply filter_In in Ht.
  - right. exists rec. repeat split; trivial.
    unfold selectRatings. apply filter_In. split; trivial.
    rewrite Hq. now apply Qpositive_lt.
Qed.

Lemma positive_reward_before (l before after : list LeaderboardUser)
    (e x : LeaderboardUser) :
  StronglySorted rankedBefore l ->
  reward e = 0%Z ->
  l = before ++ e :: after ->
  In x l -> (0 < reward x)%Z -> In x before.
Proof.
  intros Hs He -> Hx Hpos.
  apply in_app_or in Hx. destruct Hx as [Hx|[<-|Hx]]; trivial.
  - lia.
  - apply sorted_after in Hs. rewrite Forall_forall in Hs.
    destruct (Hs x Hx) as [H|[H _]]; lia.
Qed.

(** C7, as amended.  A user with a non-empty identifier who has a rating
    record with a positive role average [r] (all positive role averages
    recorded for that user being [r]) and who occurs in no task record for
    the role has an entry with task count 0, reward 0 and rating [r] in the
    ranked list before it is cut to ten, and every entry of positive reward
    stands before it there.  The entry is in the output when at most ten
    users were accumulated, and wherever the output contains it, every
    listed entry of positive reward stands before it. *)
Theorem rated_only_user_ranked_below_rewarded :
  forall (role : Role) (tasks : list TaskRow) (ratings : list RatingRow)
         (profiles : ProfileStore) (u : string) (rec : RatingRow) (r : Q),
    u <> "" ->
    In rec ratings -> user_id rec = Some u -> roleRating role rec = Some r ->
    (0 < r)%Q ->
    (forall rec' r', In rec' ratings -> user_id rec' = Some u ->
                     roleRating role rec' = Some r' -> (0 < r')%Q -> r' = r) ->
    (forall t, In t tasks -> roleId role t <> Some u) ->
    let e := resolve profiles (u, ratedOnly u r) in
    let all := ranked role tasks ratings profiles in
    let out := top role tasks ratings profiles in
    (id e = u /\ tasksCount e = 0%Z /\ reward e = 0%Z /\ rating e = Some r)
    /\ In e all
    /\ (forall before after, all = before ++ e :: after ->
          forall x, In x all -> (0 < reward x)%Z -> In x before)
    /\ ((List.length all <= 10)%nat -> In e out)
    /\ (forall before after, out = before ++ e :: after ->
          forall x, In x out -> (0 < reward x)%Z -> In x before).
Proof.
  intros role tasks ratings profiles u rec r Hu Hin Hid Hq Hpos Hsame Hnone
    e all out.
  assert (Hall : In e all).
  { subst e all. unfold ranked.
    apply (Permutation_in _ (Permutation_sym (sort_perm compareFn _))).
    apply in_map, map_get_in.
    now apply (accumulate_ratedOnly role tasks ratings u rec r). }
  split; [now subst e|]. split; trivial. split; [|split].
  - intros before after Hsplit x Hx Hrx.
    apply (positive_reward_before all before after e x); trivial.
    apply sort_sorted.
  - intros Hlen. subst out. unfold top, slice0. fold all.
    now rewrite firstn_all2.
  - intros before after Hsplit x Hx Hrx.
    apply (positive_reward_before out before after e x); trivial.
    apply firstn_sorted, sort_sorted.
Qed.

Lemma rated_only_user_ranked_below_rewarded_witness :
  let e := resolve noProfiles ("c", ratedOnly "c" 3) in
  let tasks := [completedBy "d0"] in
  In e (topDoers tasks [ratingOfC] noProfiles)
  /\ forall before after,
       topDoers tasks [ratingOfC] noProfiles = before ++ e :: after ->
       forall x, In x (topDoers tasks [ratingOfC] noProfiles) ->
                 (0 < reward x)%Z -> In x before.
Proof.
  assert (Hne : "c" <> "") by discriminate.
  assert (Hin : In ratingOfC [ratingOfC]) by (now left).
  assert (Hpos : (0 < 3)%Q) by reflexivity.
  assert (Hsame : forall rec' r', In rec' [ratingOfC] ->
            user_id rec' = Some "c" -> roleRating Doer rec' = Some r' ->
            (0 < r')%Q -> r' = 3).
  { intros rec' r' [<-|[]] _ [= <-] _. reflexivity. }
  assert (Hnone : forall t, In t [completedBy "d0"] ->
            roleId Doer t <> Some "c").
  { intros t [<-|[]]. discriminate. }
  destruct (rated_only_user_ranked_below_rewarded Doer [completedBy "d0"]
              [ratingOfC] noProfiles "c" ratingOfC 3
              Hne Hin eq_refl eq_refl Hpos Hsame Hnone)
    as (_ & _ & _ & Hout & Hbelow).
  split.
  - apply Hout. vm_compute. lia.
  - exact Hbelow.
Defined.

(** C7 as stated fails: with ten doers who each completed a task, the user
    who has only a rating is cut from the doer leaderboard. *)
Lemma rated_only_user_cut_from_top10 :
  In ratingOfC [ratingOfC]
  /\ user_id ratingOfC = Some "c"
  /\ doer_rating ratingOfC = Some 3
  /\ (0 < 3)%Q
  /\ (forall t, In t tenDoers -> doer_id t <> Some "c")
  /\ ~ (exists e, In e (topDoers tenDoers [ratingOfC] noProfiles)
                  /\ id e = "c").
Proof.
  repeat split.
  - now left.
  - intros t Ht. vm_compute in Ht.
    repeat (destruct Ht as [<-|Ht]; [discriminate|]). destruct Ht.
  - intros (e & He & Hid). vm_compute in He.
    repeat (destruct He as [<-|He]; [discriminate|]). destruct He.
Qed.

(** ** Missing profiles *)

Lemma resolve_id (profiles : ProfileStore) (entry : string * Acc) :
  id (resolve profiles entry) = fst entry.
Proof. now destruct entry. Qed.

Lemma resolve_missing (profiles : ProfileStore) (k : string) (v : Acc) :
  profiles k = None ->
  resolve profiles (k, v)
  = mkEntry k "Unknown User" None
      (acc_rating v) (acc_tasksCount v) (acc_reward v).
Proof. intros H. unfold resolve. now rewrite H. Qed.

Lemma top_ids (role : Role) (tasks : list TaskRow)
    (ratings : list RatingRow) (profiles : ProfileStore) :
  map id (top role tasks ratings profiles)
  = map fst (firstn 10 (sort compareAcc (accumulate role tasks ratings))).
Proof.
  rewrite top_resolve, map_map. apply map_ext. apply resolve_id.
Qed.

Lemma in_ranked_resolve (role : Role) (tasks : list TaskRow)
    (ratings : list RatingRow) (profiles : ProfileStore)
    (k : string) (v : Acc) :
  In (k, v) (accumulate role tasks ratings) ->
  In (resolve profiles (k, v)) (ranked role tasks ratings profiles).
Proof.
  intros Hin. unfold ranked.
  apply (Permutation_in _ (Permutation_sym (sort_perm compareFn _))).
  now apply in_map.
Qed.

Lemma ranked_length (role : Role) (tasks : list TaskRow)
    (ratings : list RatingRow) (profiles : ProfileStore) :
  List.length (ranked role tasks ratings profiles)
  = List.length (accumulate role tasks ratings).
Proof.
  unfold ranked. rewrite (Permutation_length (sort_perm compareFn _)).
  apply length_map.
Qed.

(** Whether the entry of an accumulator is listed is decided by the place
    of the accumulator in the rank order, not by its profile. *)
Lemma in_top_resolve (role : Role) (tasks : list TaskRow)
    (ratings : list RatingRow) (profiles : ProfileStore)
    (k : string) (v : Acc) :
  In (k, v) (accumulate role tasks ratings) ->
  (In (resolve profiles (k, v)) (top role tasks ratings profiles)
   <-> In (k, v)
          (firstn 10 (sort compareAcc (accumulate role tasks ratings)))).
Proof.
  intros Hin. rewrite top_resolve. split.
  - intros H. apply in_map_iff in H. destruct H as ([k' v'] & Heq & Hin').
    assert (Hk : k' = k) by (injection Heq; auto). subst k'.
    assert (Hm : In (k, v') (accumulate role tasks ratings)).
    { apply in_firstn in Hin'.
      now apply (Permutation_in _ (sort_perm compareAcc _)) in Hin'. }
    destruct (Counted_accumulate role tasks ratings) as [Hnd _].
    pose proof (in_map_get _ _ _ Hnd Hin) as H1.
    pose proof (in_map_get _ _ _ Hnd Hm) as H2.
    rewrite H1 in H2. injection H2 as <-. exact Hin'.
  - intros H. now apply in_map.
Qed.

(** C8.  The resolution loop emits one entry per accumulator, in the order
    of the map, whatever the profile store answers; an accumulator whose
    profile lookup returns no data becomes an entry with the name
    "Unknown User" and no avatar, its rating, count and reward kept; the
    users listed in the output, and their order, are the same for every
    profile store; and an entry of the output whose user has no profile
    carries the placeholder.  The entry of every accumulator is in the
    ranked list, which has as many entries as there are accumulators; it is
    in the output when at most ten users were accumulated, and in general
    it is in the output with this profile store exactly when it is with
    any other: no entry leaves the output for lack of a profile. *)
Theorem missing_profile_keeps_entry :
  forall (role : Role) (tasks : list TaskRow) (ratings : list RatingRow)
         (profiles : ProfileStore),
    let m := accumulate role tasks ratings in
    map id (map (resolve profiles) m) = keys m
    /\ (forall k v, In (k, v) m -> profiles k = None ->
          resolve profiles (k, v)
          = mkEntry k "Unknown User" None
              (acc_rating v) (acc_tasksCount v) (acc_reward v))
    /\ (forall profiles' : ProfileStore,
          map id (top role tasks ratings profiles)
          = map id (top role tasks ratings profiles'))
    /\ (forall e, In e (top role tasks ratings profiles) ->
          profiles (id e) = None ->
          username e = "Unknown User" /\ avatar_url e = None)
    /\ (forall k v, In (k, v) m ->
          In (resolve profiles (k, v)) (ranked role tasks ratings profiles))
    /\ List.length (ranked role tasks ratings profiles) = List.length m
    /\ (forall k v, In (k, v) m -> (List.length m <= 10)%nat ->
          In (resolve profiles (k, v)) (top role tasks ratings profiles))
    /\ (forall k v (profiles' : ProfileStore), In (k, v) m ->
          (In (resolve profiles (k, v)) (top role tasks ratings profiles)
           <-> In (resolve profiles' (k, v))
                  (top role tasks ratings profiles'))).
Proof.
  intros role tasks ratings profiles m. subst m.
  split; [|split; [|split; [|split; [|split; [|split; [|split]]]]]].
  - rewrite map_map. unfold keys. apply map_ext. apply resolve_id.
  - intros k v _. apply resolve_missing.
  - intros profiles'. now rewrite !top_ids.
  - intros e He Hmiss. apply top_origin in He.
    destruct He as (k & v & _ & ->). simpl in Hmiss.
    now rewrite (resolve_missing _ _ _ Hmiss).
  - intros k v. apply in_ranked_resolve.
  - apply ranked_length.
  - intros k v Hin Hlen. unfold top, slice0.
    rewrite firstn_all2 by (now rewrite ranked_length).
    now apply in_ranked_resolve.
  - intros k v profiles' Hin.
    now rewrite !(in_top_resolve role tasks ratings _ k v Hin).
Qed.

(** ** The scenarios of the specification, run on the model *)

(** Creators A and B both completed three tasks; A has a creator rating of
    4.5 and B has none: A is listed first. *)
Example tie_broken_by_rating :
  let task u := mkTaskRow (Some u) None "completed" in
  map id (topCreators [task "B"; task "A"; task "B"; task "A"; task "A"; task "B"]
            [mkRatingRow (Some "A") (Some (9 # 2)) None] noProfiles)
  = ["A"; "B"].
Proof. reflexivity. Qed.

(** Doer C has a rating of 3 and no task; doer D completed one task. *)
Example rated_only_doer_listed_last :
  topDoers [completedBy "D"] [ratingOfC] noProfiles
  = [mkEntry "D" "Unknown User" None None 1 100;
     mkEntry "c" "Unknown User" None (Some 3) 0 0].
Proof. reflexivity. Qed.

(** A task that is not completed creates an accumulator without reward. *)
Example open_task_counts_nothing :
  topCreators [mkTaskRow (Some "A") None "open";
               mkTaskRow (Some "A") None "completed";
               mkTaskRow (Some "") None "completed"]
    [mkRatingRow (Some "A") (Some 0) None] noProfiles
  = [mkEntry "A" "Unknown User" None None 1 100].
Proof. reflexivity. Qed.

End LeaderboardAggregation.

(* ================================================================== *)
(** * Further properties of the rating hook *)
(* ================================================================== *)

Section RatingHookCalls.

Import UseRating.

(** When no applied task has the doer owing a rating and no visible task
    has the requestor owing one, [checkForTasksNeedingRating] answers false
    and touches nothing: a prompt that is open stays open on its task. *)
Theorem check_without_owed_rating_keeps_world :
  forall (tasks appliedTasks : list TaskType) (user : option AuthUser)
         (w : World),
    Forall (fun t => ~ DoerOwesRating user t) appliedTasks ->
    Forall (fun t => ~ RequestorOwesRating t) tasks ->
    checkForTasksNeedingRating tasks appliedTasks user w = (false, w).
Proof.
  intros tasks appliedTasks user w Hd Hr.
  apply check_not_found.
  - now apply (find_none_all _ _ (doerNeedsRating_spec user)).
  - now apply (find_none_all _ _ requestorNeedsRating_spec).
Qed.

Lemma check_without_owed_rating_keeps_world_witness :
  checkForTasksNeedingRating [] [] None sampleSelected
  = (false, sampleSelected).
Proof.
  apply (check_without_owed_rating_keeps_world [] [] None sampleSelected);
    constructor.
Defined.

(** The answer of [checkForTasksNeedingRating] and, when it is true, the
    prompt state it leaves depend on the task lists and the user only, not
    on the state the hook was in. *)
Theorem check_forgets_prior_state :
  forall (tasks appliedTasks : list TaskType) (user : option AuthUser)
         (w1 w2 : World),
    let r1 := checkForTasksNeedingRating tasks appliedTasks user w1 in
    let r2 := checkForTasksNeedingRating tasks appliedTasks user w2 in
    fst r1 = fst r2
    /\ (fst r1 = true -> hook (snd r1) = hook (snd r2)).
Proof.
  intros tasks appliedTasks user w1 w2 r1 r2. subst r1 r2.
  destruct (find (doerNeedsRating user) appliedTasks) as [t|] eqn:Hd.
  - rewrite !(check_found_doer _ _ _ _ _ Hd). simpl. auto.
  - destruct (find requestorNeedsRating tasks) as [t|] eqn:Hr.
    + rewrite !(check_found_requestor _ _ _ _ _ Hd Hr). simpl. auto.
    + rewrite !(check_not_found _ _ _ _ Hd Hr). simpl.
      split; [trivial | discriminate].
Qed.

(** In a reachable world the current task was selected by a recorded
    [setCurrentTaskForRating], and every recorded call of the submission
    function was made for such a task. *)
Lemma reachable_trace :
  forall w : World,
    Reachable w ->
    (forall t, currentTaskForRating (hook w) = Some t ->
               In (SetCurrentTaskForRating (Some t)) (trace w))
    /\ (forall taskId rating seen,
          In (HandleSubmitRating taskId rating seen) (trace w) ->
          exists t, In (SetCurrentTaskForRating (Some t)) (trace w)
                       /\ id t = taskId).
Proof.
  intros w Hw. induction Hw as [|tasks appliedTasks user w Hw [IHc IHs]
                                |handleSubmitRating rating w Hw [IHc IHs]].
  - split; [discriminate | intros ? ? ? []].
  - assert (Hfound : forall t,
      checkForTasksNeedingRating tasks appliedTasks user w
      = (true, mkWorld (mkHook true true (Some t))
                 (trace w ++ [SetCurrentTaskForRating (Some t)]
                          ++ [SetIsRatingDialogOpen true]
                          ++ [SetIsEnforcedRating true])) ->
      (forall t0,
         currentTaskForRating
           (hook (snd (checkForTasksNeedingRating tasks appliedTasks user w)))
         = Some t0 ->
         In (SetCurrentTaskForRating (Some t0))
            (trace (snd (checkForTasksNeedingRating tasks appliedTasks user w))))
      /\ (forall taskId rating seen,
            In (HandleSubmitRating taskId rating seen)
               (trace (snd (checkForTasksNeedingRating tasks appliedTasks
                              user w))) ->
            exists t0,
                 In (SetCurrentTaskForRating (Some t0))
                    (trace (snd (checkForTasksNeedingRating tasks
                                   appliedTasks user w)))
                 /\ id t0 = taskId)).
    { intros t ->. simpl. split.
      - intros t0 [= <-]. apply in_or_app. right. now left.
      - intros taskId rating seen Hin. apply in_app_or in Hin.
        destruct Hin as [Hin|Hin].
        + destruct (IHs _ _ _ Hin) as (t0 & Ht0 & Hid).
          exists t0. split; trivial.
          apply in_or_app. now left.
        + simpl in Hin. destruct Hin as [H|[H|[H|[]]]]; discriminate. }
    destruct (find (doerNeedsRating user) appliedTasks) as [t|] eqn:Hd.
    + apply (Hfound t), check_found_doer, Hd.
    + destruct (find requestorNeedsRating tasks) as [t|] eqn:Hr.
      * apply (Hfound t), check_found_requestor; trivial.
      * rewrite (check_not_found _ _ _ _ Hd Hr). simpl. now split.
  - destruct (currentTaskForRating (hook w)) as [task|] eqn:Hc.
    + rewrite (submit_with_task _ _ _ _ Hc). simpl. split; [discriminate|].
      intros taskId rating' seen Hin. apply in_app_or in Hin.
      destruct Hin as [Hin|Hin].
      * destruct (IHs _ _ _ Hin) as (t0 & Ht0 & Hid).
        exists t0. split; trivial.
        apply in_or_app. now left.
      * simpl in Hin. destruct Hin as [H|[H|[H|[H|[]]]]]; try discriminate.
        injection H as <- _ _.
        exists task. split; trivial. apply in_or_app. left. now apply IHc.
    + rewrite (submit_guard _ _ _ Hc). simpl. rewrite Hc.
      split; [discriminate | exact IHs].
Qed.

(** Every call of the external submission function recorded in a
    reachable world carries the identifier of a task that
    [checkForTasksNeedingRating] had made current before: the hook submits
    ratings for no other task. *)
Theorem reachable_calls_rate_selected_tasks :
  forall (w : World) (taskId : string) (rating : Q) (seen : HookState),
    Reachable w ->
    In (HandleSubmitRating taskId rating seen) (trace w) ->
    exists t, In (SetCurrentTaskForRating (Some t)) (trace w)
              /\ id t = taskId.
Proof.
  intros w taskId rating seen Hw Hin.
  exact (proj2 (reachable_trace w Hw) _ _ _ Hin).
Qed.

Lemma reachable_calls_rate_selected_tasks_witness :
  let w :=
    snd (onSubmitRating alwaysRejects 4
           (snd (checkForTasksNeedingRating [] [sampleTask]
                   (Some (mkUser "u1")) (mkWorld initialState [])))) in
  exists t, In (SetCurrentTaskForRating (Some t)) (trace w) /\ id t = "t1".
Proof.
  intros w.
  apply (reachable_calls_rate_selected_tasks w "t1" 4 cleared).
  - apply reach_submit, reach_check, reach_init.
  - vm_compute. do 6 right. now left.
Defined.

(** Two calls of [onSubmitRating] made from the same render both pass the
    guard, which reads the constant of the render, and both call the
    submission function for the task of that render.  Made from the render
    that follows, the call answers false and calls nothing. *)
Theorem submit_twice_in_one_render :
  forall (first second : SubmitFn) (rating1 rating2 : Q)
         (r : UseRatingRender.Render) (task : TaskType),
    currentTaskForRating (UseRatingRender.cells r) = Some task ->
    let r1 := snd (UseRatingRender.onSubmitRating first rating1 r) in
    UseRatingRender.events
      (snd (UseRatingRender.onSubmitRating second rating2 r1))
    = UseRatingRender.events r
      ++ [SetIsRatingDialogOpen false; SetCurrentTaskForRating None;
          SetIsEnforcedRating false;
          HandleSubmitRating (id task) rating1 (UseRatingRender.cells r)]
      ++ [SetIsRatingDialogOpen false; SetCurrentTaskForRating None;
          SetIsEnforcedRating false;
          HandleSubmitRating (id task) rating2 (UseRatingRender.cells r)]
    /\ UseRatingRender.onSubmitRating second rating2
         (UseRatingRender.rerender r1)
       = (false, UseRatingRender.rerender r1).
Proof.
  intros first second rating1 rating2 r task Hc r1. subst r1.
  rewrite (render_submit_with_task first rating1 r task Hc). cbn [snd].
  split.
  - match goal with
    | |- context [UseRatingRender.onSubmitRating second rating2 ?r1] =>
        rewrite (render_submit_with_task second rating2 r1 task Hc)
    end.
    simpl. now rewrite <- app_assoc.
  - reflexivity.
Qed.

Lemma submit_twice_in_one_render_witness :
  let r1 :=
    snd (UseRatingRender.onSubmitRating alwaysRejects 4
           UseRatingRender.sampleRender) in
  UseRatingRender.events
    (snd (UseRatingRender.onSubmitRating alwaysRejects 5 r1))
  = [SetIsRatingDialogOpen false; SetCurrentTaskForRating None;
     SetIsEnforcedRating false;
     HandleSubmitRating "t1" 4 (mkHook true true (Some sampleTask));
     SetIsRatingDialogOpen false; SetCurrentTaskForRating None;
     SetIsEnforcedRating false;
     HandleSubmitRating "t1" 5 (mkHook true true (Some sampleTask))]
  /\ UseRatingRender.onSubmitRating alwaysRejects 5
       (UseRatingRender.rerender r1)
     = (false, UseRatingRender.rerender r1).
Proof.
  exact (submit_twice_in_one_render alwaysRejects alwaysRejects 4 5
           UseRatingRender.sampleRender sampleTask eq_refl).
Defined.

(** ** The returned setter *)

Lemma perform_cases tasks appliedTasks handleSubmitRating user a w :
  let w' := perform (useRating tasks appliedTasks handleSubmitRating user w)
                    a w in
  (exists b, hook w' = mkHook b (isEnforcedRating (hook w))
                         (currentTaskForRating (hook w)))
  \/ (exists t, hook w' = mkHook true true (Some t))
  \/ hook w' = cleared
  \/ w' = w.
Proof.
  destruct a as [b| | |rating]; simpl.
  - left. now exists b.
  - destruct (check_cases tasks appliedTasks user w) as [(t & Ht & _)|Hw];
      [right; left; now exists t | right; right; right; now rewrite Hw].
  - unfold handleRequestRating, bind, ret.
    destruct (check_cases tasks appliedTasks user w) as [(t & Ht & _)|Hw].
    + right. left. exists t.
      destruct (checkForTasksNeedingRating tasks appliedTasks user w).
      exact Ht.
    + right. right. right. now rewrite Hw.
  - destruct (currentTaskForRating (hook w)) as [task|] eqn:Hc.
    + right. right. left. now rewrite (submit_with_task _ _ _ _ Hc).
    + right. right. right. now rewrite (submit_guard _ _ _ Hc).
Qed.

(** The hook hands its caller the raw setter [setIsRatingDialogOpen]
    beside its two operations.  Through the returned object the enforced
    flag stays set exactly when a current task is set, but the dialog flag
    is tied to neither: a caller can reach a prompt that is open without
    any task, and a prompt that is enforced on a task and closed. *)
Theorem returned_setter_unties_dialog_flag :
  (forall w : World,
     Driven w ->
     (isEnforcedRating (hook w) = true
      <-> currentTaskForRating (hook w) <> None))
  /\ (exists w : World,
        Driven w
        /\ isRatingDialogOpen (hook w) = true
        /\ currentTaskForRating (hook w) = None)
  /\ (exists w : World,
        Driven w
        /\ isRatingDialogOpen (hook w) = false
        /\ isEnforcedRating (hook w) = true).
Proof.
  split; [|split].
  - intros w Hw.
    induction Hw as [|tasks appliedTasks handleSubmitRating user a w Hw IH].
    + simpl. split; [discriminate | intros H; now contradiction H].
    + destruct (perform_cases tasks appliedTasks handleSubmitRating user a w)
        as [(b & ->)|[(t & ->)|[->| ->]]]; simpl; trivial.
      * split; [discriminate | trivial].
      * split; [discriminate | intros H; now contradiction H].
  - exists (perform (useRating [] [] alwaysRejects None
                       (mkWorld initialState []))
              (CallSetIsRatingDialogOpen true) (mkWorld initialState [])).
    split; [apply driven_step, driven_init | split; reflexivity].
  - set (w1 := perform (useRating [] [sampleTask] alwaysRejects
                          (Some (mkUser "u1")) (mkWorld initialState []))
                 CallCheckForTasksNeedingRating (mkWorld initialState [])).
    exists (perform (useRating [] [] alwaysRejects None w1)
              (CallSetIsRatingDialogOpen false) w1).
    split; [apply driven_step, driven_step, driven_init | split; reflexivity].
Qed.

End RatingHookCalls.

(* ================================================================== *)
(** * Further properties of the statistics view *)
(* ================================================================== *)

Section StatisticsView.

Import UserStatistics.

(** The level reached is decided by the thresholds 5, 10, 20 and 50. *)
Theorem level_thresholds :
  forall n : Z,
    let name := level (getUserLevel n) in
    (name = "Beginner" <-> n < 5)%Z
    /\ (name = "Beginner+" <-> 5 <= n < 10)%Z
    /\ (name = "Intermediate" <-> 10 <= n < 20)%Z
    /\ (name = "Advanced" <-> 20 <= n < 50)%Z
    /\ (name = "Expert" <-> 50 <= n)%Z.
Proof.
  intros n name. subst name. unfold getUserLevel.
  destruct (Z.geb_spec n 50); [|destruct (Z.geb_spec n 20);
    [|destruct (Z.geb_spec n 10); [|destruct (Z.geb_spec n 5)]]];
    simpl; repeat split; intros; try discriminate; try lia.
Qed.

(** More completed tasks never give a lower level. *)
Theorem level_monotone :
  forall n m : Z,
    (n <= m)%Z ->
    (levelRank (level (getUserLevel n))
     <= levelRank (level (getUserLevel m)))%nat.
Proof.
  intros n m Hnm. unfold getUserLevel.
  destruct (Z.geb_spec n 50); destruct (Z.geb_spec m 50);
    destruct (Z.geb_spec n 20); destruct (Z.geb_spec m 20);
    destruct (Z.geb_spec n 10); destruct (Z.geb_spec m 10);
    destruct (Z.geb_spec n 5); destruct (Z.geb_spec m 5);
    unfold levelRank; simpl; lia.
Qed.

Lemma level_monotone_witness :
  (levelRank (level (getUserLevel 7))
   <= levelRank (level (getUserLevel 25)))%nat.
Proof. apply (level_monotone 7 25). lia. Defined.


End StatisticsView.

(* ================================================================== *)
(** * Further properties of the leaderboard *)
(* ================================================================== *)

Section LeaderboardUsers.

Import Leaderboard.

(** ** Who is accumulated *)

Lemma in_keys_map_set (k k' : string) (v : Acc) (m : JsMap) :
  In k' (keys (map_set k v m)) <-> In k' (keys m) \/ k' = k.
Proof.
  rewrite keys_map_set. unfold map_has.
  destruct (map_get k m) eqn:E.
  - split; [auto|]. intros [H| ->]; trivial.
    destruct (in_dec string_dec k (keys m)) as [Hin|Hnin]; trivial.
    apply map_get_none_keys in Hnin. congruence.
  - rewrite in_app_iff. simpl. intuition congruence.
Qed.

Lemma map_get_some_keys (k : string) (v : Acc) (m : JsMap) :
  map_get k m = Some v -> In k (keys m).
Proof.
  intros H. apply map_get_in in H. change k with (fst (k, v)).
  now apply in_map.
Qed.

Lemma in_keys_countTask (role : Role) (m : JsMap) (t : TaskRow) (k : string) :
  In k (keys (countTask role m t))
  <-> In k (keys m) \/ truthy (roleId role t) = Some k.
Proof.
  unfold countTask. destruct (truthy (roleId role t)) as [k0|] eqn:Ht.
  - destruct (map_get k0 m) as [existing|] eqn:Hget.
    + assert (Hk0 : In k0 (keys m)) by now apply map_get_some_keys in Hget.
      destruct (isCompleted t).
      * rewrite in_keys_map_set. split; [intros [H| ->]; auto|].
        intros [H|[= ->]]; auto.
      * split; [auto|]. intros [H|[= <-]]; trivial.
    + rewrite in_keys_map_set. split.
      * intros [H| ->]; auto.
      * intros [H|[= ->]]; auto.
  - split; [auto|]. intros [H|H]; [trivial | discriminate].
Qed.

Lemma in_keys_first_pass (role : Role) (l : list TaskRow) (m : JsMap)
    (k : string) :
  In k (keys (fold_left (countTask role) l m))
  <-> In k (keys m) \/ exists t, In t l /\ truthy (roleId role t) = Some k.
Proof.
  revert m. induction l as [|t l IH]; intros m; simpl.
  - split; [auto|]. intros [H|(t & [] & _)]. exact H.
  - rewrite IH, in_keys_countTask. split.
    + intros [[H|H]|(t' & Hin & Ht')]; eauto.
    + intros [H|(t' & [<-|Hin] & Ht')]; eauto.
Qed.

Lemma in_keys_attachRating (role : Role) (m : JsMap) (r : RatingRow)
    (k : string) :
  In k (keys (attachRating role m r))
  <-> In k (keys m)
      \/ (truthy (user_id r) = Some k /\ roleRating role r <> None).
Proof.
  unfold attachRating. destruct (truthy (user_id r)) as [k0|] eqn:Hu.
  - destruct (roleRating role r) as [q|] eqn:Hq.
    + assert (Hset : forall v, In k (keys (map_set k0 v m))
                               <-> In k (keys m) \/ (Some k0 = Some k
                                                     /\ Some q <> None)).
      { intros v. rewrite in_keys_map_set. split.
        - intros [H| ->]; auto. right. split; [trivial | discriminate].
        - intros [H|[[= ->] _]]; auto. }
      destruct (map_get k0 m); apply Hset.
    + split; [auto|]. intros [H|[_ H]]; [trivial | now contradiction H].
  - split; [auto|]. intros [H|[H _]]; [trivial | discriminate].
Qed.

Lemma in_keys_second_pass (role : Role) (rs : list RatingRow) (m : JsMap)
    (k : string) :
  In k (keys (fold_left (attachRating role) rs m))
  <-> In k (keys m)
      \/ exists r, In r rs /\ truthy (user_id r) = Some k
                   /\ roleRating role r <> None.
Proof.
  revert m. induction rs as [|r rs IH]; intros m; simpl.
  - split; [auto|]. intros [H|(r & [] & _)]. exact H.
  - rewrite IH, in_keys_attachRating. split.
    + intros [[H|[H1 H2]]|(r' & Hin & Hr')]; eauto 6.
    + intros [H|(r' & [<-|Hin] & Hr')]; eauto 6.
Qed.

Lemma in_selectRatings (role : Role) (ratings : list RatingRow)
    (r : RatingRow) :
  In r (selectRatings role ratings)
  <-> In r ratings /\ exists q, roleRating role r = Some q /\ (0 < q)%Q.
Proof.
  unfold selectRatings. rewrite filter_In.
  destruct (roleRating role r) as [q|].
  - rewrite Qpositive_lt. split.
    + intros [H1 H2]. eauto.
    + intros [H1 (q' & [= <-] & H2)]. auto.
  - split; [intros [_ H]; discriminate | intros [_ (q & H & _)]; discriminate].
Qed.

Lemma in_keys_accumulate :
  forall (role : Role) (tasks : list TaskRow) (ratings : list RatingRow)
         (k : string),
    In k (keys (accumulate role tasks ratings))
    <-> (k <> "" /\ exists t, In t tasks /\ roleId role t = Some k)
        \/ (exists r, In r ratings /\ Qualifies role r k).
Proof.
  intros role tasks ratings k. unfold accumulate.
  rewrite in_keys_second_pass, in_keys_first_pass. simpl. split.
  - intros [[[]|(t & Hin & Ht)]|(r & Hin & Hu & _)].
    + apply truthy_some in Ht. destruct Ht as [Hid Hk]. left. split; trivial.
      exists t. split; trivial.
      destruct role; simpl in Hin; trivial. now apply filter_In in Hin.
    + apply truthy_some in Hu. apply in_selectRatings in Hin.
      right. exists r. unfold Qualifies. tauto.
  - intros [[Hk (t & Hin & Hid)]|(r & Hin & Hid & Hk & q & Hq & Hpos)].
    + left. right. exists t. split.
      * now apply (selectTasks_mentions role tasks t k).
      * apply truthy_some. auto.
    + right. exists r. split; [|split].
      * apply in_selectRatings. eauto.
      * apply truthy_some. auto.
      * congruence.
Qed.

(** A user has an accumulator exactly when the identifier is not empty and
    occurs in a task row in the role, or when a rating row with a positive
    role average carries it. *)
Theorem accumulated_users :
  forall (role : Role) (tasks : list TaskRow) (ratings : list RatingRow)
         (k : string),
    In k (keys (accumulate role tasks ratings))
    <-> (k <> "" /\ exists t, In t tasks /\ roleId role t = Some k)
        \/ (exists r, In r ratings /\ Qualifies role r k).
Proof. exact in_keys_accumulate. Qed.

(** ** What is listed *)

Lemma NoDup_firstn {A : Type} (n : nat) (l : list A) :
  NoDup l -> NoDup (firstn n l).
Proof.
  intros H. rewrite <- (firstn_skipn n l) in H.
  now apply NoDup_app_remove_r in H.
Qed.

Lemma NoDup_keys_accumulate (role : Role) (tasks : list TaskRow)
    (ratings : list RatingRow) :
  NoDup (keys (accumulate role tasks ratings)).
Proof. apply (Counted_accumulate role tasks ratings). Qed.

Lemma top_counts :
  forall (role : Role) (tasks : list TaskRow) (ratings : list RatingRow)
         (profiles : ProfileStore) (e : LeaderboardUser),
    In e (top role tasks ratings profiles) ->
    tasksCount e = Z.of_nat (completedCount role tasks (id e))
    /\ reward e = (100 * tasksCount e)%Z.
Proof.
  intros role tasks ratings profiles e He.
  apply top_origin in He. destruct He as (k & v & Hin & ->).
  destruct (Counted_accumulate role tasks ratings) as [Hnd Hm].
  specialize (Hm k). rewrite (in_map_get _ _ _ Hnd Hin) in Hm.
  destruct Hm as (_ & Htc & Hrw). simpl. rewrite Htc. auto.
Qed.

(** Every listed entry carries the number of completed tasks of its user
    in the role, and a reward of 100 for each. *)
Theorem listed_counts :
  forall (role : Role) (tasks : list TaskRow) (ratings : list RatingRow)
         (profiles : ProfileStore) (e : LeaderboardUser),
    In e (top role tasks ratings profiles) ->
    tasksCount e = Z.of_nat (completedCount role tasks (id e))
    /\ reward e = (100 * tasksCount e)%Z.
Proof. exact top_counts. Qed.

Lemma top_distinct :
  forall (role : Role) (tasks : list TaskRow) (ratings : list RatingRow)
         (profiles : ProfileStore),
    NoDup (map id (top role tasks ratings profiles))
    /\ (forall e, In e (top role tasks ratings profiles) -> id e <> "").
Proof.
  intros role tasks ratings profiles. split.
  - rewrite top_ids, <- firstn_map. apply NoDup_firstn.
    apply (Permutation_NoDup (l := keys (accumulate role tasks ratings))).
    + unfold keys. apply Permutation_map, Permutation_sym, sort_perm.
    + apply NoDup_keys_accumulate.
  - intros e He. apply top_origin in He. destruct He as (k & v & Hin & ->).
    destruct (Counted_accumulate role tasks ratings) as [Hnd Hm].
    specialize (Hm k). rewrite (in_map_get _ _ _ Hnd Hin) in Hm.
    simpl. tauto.
Qed.

(** No user is listed twice, and no listed identifier is empty. *)
Theorem listed_users_distinct :
  forall (role : Role) (tasks : list TaskRow) (ratings : list RatingRow)
         (profiles : ProfileStore),
    NoDup (map id (top role tasks ratings profiles))
    /\ (forall e, In e (top role tasks ratings profiles) -> id e <> "").
Proof. exact top_distinct. Qed.

Lemma top_length :
  forall (role : Role) (tasks : list TaskRow) (ratings : list RatingRow)
         (profiles : ProfileStore),
    List.length (top role tasks ratings profiles)
    = Nat.min 10 (List.length (keys (accumulate role tasks ratings))).
Proof.
  intros role tasks ratings profiles.
  rewrite top_resolve, length_map, length_firstn. f_equal.
  unfold keys. rewrite length_map.
  apply Permutation_length, sort_perm.
Qed.

(** The list has as many entries as there are accumulated users, up to
    ten. *)
Theorem listed_length :
  forall (role : Role) (tasks : list TaskRow) (ratings : list RatingRow)
         (profiles : ProfileStore),
    List.length (top role tasks ratings profiles)
    = Nat.min 10 (List.length (keys (accumulate role tasks ratings))).
Proof. exact top_length. Qed.

Lemma sorted_across {A : Type} (R : A -> A -> Prop) (l1 l2 : list A)
    (x y : A) :
  StronglySorted R (l1 ++ l2) -> In x l1 -> In y l2 -> R x y.
Proof.
  induction l1 as [|z l1 IH]; simpl; intros Hs Hx Hy; [contradiction|].
  inversion_clear Hs as [|? ? Hs' Hz]. destruct Hx as [->|Hx].
  - rewrite Forall_forall in Hz. apply Hz, in_or_app. now right.
  - now apply IH.
Qed.

(** An entry that the cut to ten removes does not outrank any entry that
    is kept. *)
Theorem cut_entries_rank_last :
  forall (role : Role) (tasks : list TaskRow) (ratings : list RatingRow)
         (profiles : ProfileStore) (kept cut : LeaderboardUser),
    In kept (top role tasks ratings profiles) ->
    In cut (skipn 10 (ranked role tasks ratings profiles)) ->
    rankedBefore kept cut.
Proof.
  intros role tasks ratings profiles kept cut Hk Hc.
  apply (sorted_across rankedBefore
           (firstn 10 (ranked role tasks ratings profiles))
           (skipn 10 (ranked role tasks ratings profiles))); trivial.
  rewrite firstn_skipn. apply sort_sorted.
Qed.

Lemma listed_counts_witness :
  let e := mkEntry "d0" "Unknown User" None None 1 100 in
  tasksCount e = Z.of_nat (completedCount Doer tenDoers (id e))
  /\ reward e = (100 * tasksCount e)%Z.
Proof.
  intros e.
  apply (listed_counts Doer tenDoers [ratingOfC] noProfiles e).
  vm_compute. now left.
Defined.

Lemma cut_entries_rank_last_witness :
  rankedBefore (mkEntry "d9" "Unknown User" None None 1 100)
               (mkEntry "c" "Unknown User" None (Some 3) 0 0).
Proof.
  apply (cut_entries_rank_last Doer tenDoers [ratingOfC] noProfiles).
  - vm_compute. do 9 right. now left.
  - vm_compute. now left.
Defined.

(** ** Where a listed rating comes from *)

Lemma countTask_rating (role : Role) (m : JsMap) (t : TaskRow)
    (k : string) (v : Acc) :
  map_get k (countTask role m t) = Some v ->
  acc_rating v = None
  \/ exists v0, map_get k m = Some v0 /\ acc_rating v0 = acc_rating v.
Proof.
  unfold countTask. destruct (truthy (roleId role t)) as [k0|]; [|eauto].
  destruct (String.eqb_spec k k0) as [->|Hne].
  - destruct (map_get k0 m) as [existing|] eqn:Hget.
    + destruct (isCompleted t).
      * rewrite map_get_set_same. intros [= <-]. right. eauto.
      * rewrite Hget. intros [= <-]. right. eauto.
    + rewrite map_get_set_same. intros [= <-]. now left.
  - assert (Hsame : forall m', (forall v', m' = map_set k0 v' m) \/ m' = m ->
              map_get k m' = Some v -> exists v0, map_get k m = Some v0
                                       /\ acc_rating v0 = acc_rating v).
    { intros m' [Hm'| ->] Hv; [|eauto].
      rewrite (Hm' v), map_get_set_other in Hv by trivial. eauto. }
    destruct (map_get k0 m) as [existing|]; [destruct (isCompleted t)|];
      intros Hv; right.
    + rewrite map_get_set_other in Hv by trivial. eauto.
    + eauto.
    + rewrite map_get_set_other in Hv by trivial. eauto.
Qed.

Lemma first_pass_unrated (role : Role) (l : list TaskRow) (m : JsMap) :
  (forall k v, map_get k m = Some v -> acc_rating v = None) ->
  forall k v, map_get k (fold_left (countTask role) l m) = Some v ->
              acc_rating v = None.
Proof.
  revert m. induction l as [|t l IH]; intros m Hm k v; simpl; [apply Hm|].
  apply IH. intros k' v' Hv'.
  destruct (countTask_rating role m t k' v' Hv') as [H|(v0 & Hv0 & Heq)];
    trivial.
  rewrite <- Heq. now apply (Hm k').
Qed.

Lemma second_pass_rated_from (role : Role) (all rs : list RatingRow)
    (m : JsMap) :
  (forall r, In r rs -> In r all) ->
  (forall k v q, map_get k m = Some v -> acc_rating v = Some q ->
     exists r, In r all /\ truthy (user_id r) = Some k
               /\ roleRating role r = Some q) ->
  forall k v q,
    map_get k (fold_left (attachRating role) rs m) = Some v ->
    acc_rating v = Some q ->
    exists r, In r all /\ truthy (user_id r) = Some k
              /\ roleRating role r = Some q.
Proof.
  revert m. induction rs as [|r rs IH]; intros m Hall Hm; simpl; [exact Hm|].
  apply IH; [intros r' Hr'; apply Hall; now right|].
  intros k v q. unfold attachRating.
  destruct (truthy (user_id r)) as [k0|] eqn:Hu; [|apply Hm].
  destruct (roleRating role r) as [q0|] eqn:Hq; [|apply Hm].
  destruct (String.eqb_spec k k0) as [->|Hne].
  - assert (Hnew : forall v', acc_rating v' = Some q0 ->
              map_get k0 (map_set k0 v' m) = Some v -> acc_rating v = Some q ->
              exists r0, In r0 all /\ truthy (user_id r0) = Some k0
                         /\ roleRating role r0 = Some q).
    { intros v' Hv'. rewrite map_get_set_same. intros [= <-] Hvq.
      exists r. repeat split; trivial; [apply Hall; now left | congruence]. }
    destruct (map_get k0 m); now apply Hnew.
  - destruct (map_get k0 m); rewrite map_get_set_other by trivial; apply Hm.
Qed.

Lemma attachRating_keeps_rated (role : Role) (m : JsMap) (r : RatingRow)
    (k : string) :
  (exists v, map_get k m = Some v /\ acc_rating v <> None) ->
  exists v, map_get k (attachRating role m r) = Some v /\ acc_rating v <> None.
Proof.
  intros (v & Hv & Hr). unfold attachRating.
  destruct (truthy (user_id r)) as [k0|]; [|eauto].
  destruct (roleRating role r) as [q0|]; [|eauto].
  destruct (String.eqb_spec k k0) as [->|Hne].
  - destruct (map_get k0 m); rewrite map_get_set_same; eexists;
      (split; [reflexivity | discriminate]).
  - destruct (map_get k0 m); rewrite map_get_set_other by trivial; eauto.
Qed.

Lemma second_pass_rates (role : Role) (rs : list RatingRow) (m : JsMap)
    (k : string) :
  (exists v, map_get k m = Some v /\ acc_rating v <> None)
  \/ (exists r, In r rs /\ truthy (user_id r) = Some k
                /\ roleRating role r <> None) ->
  exists v, map_get k (fold_left (attachRating role) rs m) = Some v
            /\ acc_rating v <> None.
Proof.
  revert m. induction rs as [|r rs IH]; intros m; simpl.
  - intros [H|(r & [] & _)]. exact H.
  - intros [H|(r' & [<-|Hin] & Hu & Hq)]; apply IH.
    + left. now apply attachRating_keeps_rated.
    + left. unfold attachRating. rewrite Hu.
      destruct (roleRating role r) as [q0|]; [|now contradiction Hq].
      destruct (map_get k m); rewrite map_get_set_same; eexists;
        (split; [reflexivity | discriminate]).
    + right. eauto.
Qed.

Lemma top_rating_provenance :
  forall (role : Role) (tasks : list TaskRow) (ratings : list RatingRow)
         (profiles : ProfileStore) (e : LeaderboardUser),
    In e (top role tasks ratings profiles) ->
    (forall q, rating e = Some q ->
       (0 < q)%Q
       /\ exists r, In r ratings /\ user_id r = Some (id e)
                    /\ roleRating role r = Some q)
    /\ ((exists r, In r ratings /\ Qualifies role r (id e)) ->
        rating e <> None).
Proof.
  intros role tasks ratings profiles e He.
  apply top_origin in He. destruct He as (k & v & Hin & ->).
  apply in_map_get in Hin; [|apply NoDup_keys_accumulate].
  simpl. split.
  - intros q Hq. unfold accumulate in Hin.
    destruct (second_pass_rated_from role (selectRatings role ratings)
                (selectRatings role ratings)
                (fold_left (countTask role) (selectTasks role tasks) []))
      with (k := k) (v := v) (q := q) as (r & Hr & Hu & Hrq); trivial.
    { intros k' v' q' Hv' Hq'.
      assert (Hempty : forall k0 v0, map_get k0 [] = Some v0 ->
                                     acc_rating v0 = None)
        by (intros k0 v0 H; discriminate H).
      rewrite (first_pass_unrated role _ [] Hempty k' v' Hv') in Hq'.
      discriminate. }
    apply in_selectRatings in Hr. destruct Hr as (Hr & q' & Hq' & Hpos).
    apply truthy_some in Hu. split.
    + congruence.
    + exists r. tauto.
  - intros (r & Hr & Hid & Hk & q & Hq & Hpos).
    destruct (second_pass_rates role (selectRatings role ratings)
                (fold_left (countTask role) (selectTasks role tasks) []) k)
      as (v' & Hv' & Hrated).
    { right. exists r. split; [|split].
      - apply in_selectRatings. eauto.
      - apply truthy_some. auto.
      - congruence. }
    unfold accumulate in Hin. congruence.
Qed.

(** A listed rating is the positive role average of a rating row of that
    user, and a listed user who has such a row has a rating. *)
Theorem listed_rating_provenance :
  forall (role : Role) (tasks : list TaskRow) (ratings : list RatingRow)
         (profiles : ProfileStore) (e : LeaderboardUser),
    In e (top role tasks ratings profiles) ->
    (forall q, rating e = Some q ->
       (0 < q)%Q
       /\ exists r, In r ratings /\ user_id r = Some (id e)
                    /\ roleRating role r = Some q)
    /\ ((exists r, In r ratings /\ Qualifies role r (id e)) ->
        rating e <> None).
Proof. exact top_rating_provenance. Qed.

Lemma listed_rating_provenance_witness :
  let e := mkEntry "c" "Unknown User" None (Some 3) 0 0 in
  (forall q, rating e = Some q ->
     (0 < q)%Q
     /\ exists r, In r [ratingOfC] /\ user_id r = Some (id e)
                  /\ roleRating Doer r = Some q)
  /\ ((exists r, In r [ratingOfC] /\ Qualifies Doer r (id e)) ->
      rating e <> None).
Proof.
  intros e.
  apply (listed_rating_provenance Doer [completedBy "D"] [ratingOfC]
           noProfiles e).
  vm_compute. right. now left.
Defined.

(** ** Ties *)

Lemma filter_insertBy {A : Type} (cmp : A -> A -> Q) (p : A -> bool)
    (x : A) (l : list A) :
  (forall a b, p a = true -> p b = true -> Qle_bool (cmp a b) 0 = true) ->
  filter p (insertBy cmp x l) = filter p (x :: l).
Proof.
  intros Htie. induction l as [|y l IH]; trivial.
  simpl insertBy. destruct (Qle_bool (cmp x y) 0) eqn:E; trivial.
  simpl in IH |- *. rewrite IH.
  destruct (p x) eqn:Hx; trivial.
  destruct (p y) eqn:Hy; trivial.
  rewrite (Htie x y Hx Hy) in E. discriminate.
Qed.

Lemma filter_sort {A : Type} (cmp : A -> A -> Q) (p : A -> bool)
    (l : list A) :
  (forall a b, p a = true -> p b = true -> Qle_bool (cmp a b) 0 = true) ->
  filter p (sort cmp l) = filter p l.
Proof.
  intros Htie. induction l as [|x l IH]; trivial.
  unfold sort in IH |- *. simpl fold_right.
  rewrite (filter_insertBy cmp p x _ Htie). simpl. now rewrite IH.
Qed.

Lemma tiedAt_compare (w : Z) (q : Q) (a b : LeaderboardUser) :
  tiedAt w q a = true -> tiedAt w q b = true ->
  Qle_bool (compareFn a b) 0 = true.
Proof.
  unfold tiedAt. rewrite !andb_true_iff, !Z.eqb_eq, !Qeq_bool_iff.
  intros [Ha Qa] [Hb Qb]. apply compareFn_rankedBefore. right.
  split; [congruence|]. rewrite Qa, Qb. apply Qle_refl.
Qed.

(** The sort is stable: the entries that have the same reward and the same
    average stand in the ranked list in the order in which the map yields
    their users, which is the order of first insertion. *)
Theorem ties_keep_map_order :
  forall (role : Role) (tasks : list TaskRow) (ratings : list RatingRow)
         (profiles : ProfileStore) (w : Z) (q : Q),
    filter (tiedAt w q) (ranked role tasks ratings profiles)
    = filter (tiedAt w q)
        (map (resolve profiles) (accumulate role tasks ratings)).
Proof.
  intros role tasks ratings profiles w q. unfold ranked.
  apply filter_sort. apply tiedAt_compare.
Qed.

(** ** Each role reads its own columns *)

Lemma countTask_columns (role : Role) (m : JsMap) (t t' : TaskRow) :
  roleId role t = roleId role t' -> status t = status t' ->
  countTask role m t = countTask role m t'.
Proof.
  intros Hid Hst. unfold countTask, isCompleted. now rewrite Hid, Hst.
Qed.

Lemma attachRating_columns (role : Role) (m : JsMap) (r r' : RatingRow) :
  user_id r = user_id r' -> roleRating role r = roleRating role r' ->
  attachRating role m r = attachRating role m r'.
Proof.
  intros Hid Hq. unfold attachRating. now rewrite Hid, Hq.
Qed.

Lemma fold_left_related {A B : Type} (R : B -> B -> Prop)
    (f : A -> B -> A) (l l' : list B) (a : A) :
  (forall a0 x y, R x y -> f a0 x = f a0 y) ->
  Forall2 R l l' -> fold_left f l a = fold_left f l' a.
Proof.
  intros Hf H. revert a. induction H as [|x y l l' Hxy _ IH]; intros a;
    simpl; trivial.
  now rewrite (Hf a x y Hxy), IH.
Qed.

Lemma filter_related {B : Type} (R : B -> B -> Prop) (p : B -> bool)
    (l l' : list B) :
  (forall x y, R x y -> p x = p y) ->
  Forall2 R l l' -> Forall2 R (filter p l) (filter p l').
Proof.
  intros Hp H. induction H as [|x y l l' Hxy _ IH]; simpl; [constructor|].
  rewrite (Hp x y Hxy). destruct (p y); [constructor|]; trivial.
Qed.

(** The list of a role depends on the task rows through the identifier of
    that role and the status only, and on the rating rows through the user
    identifier and the average of that role only: the columns of the other
    role do not reach it. *)
Theorem role_reads_its_own_columns :
  forall (role : Role) (tasks tasks' : list TaskRow)
         (ratings ratings' : list RatingRow) (profiles : ProfileStore),
    Forall2 (fun t t' => roleId role t = roleId role t'
                         /\ status t = status t') tasks tasks' ->
    Forall2 (fun r r' => user_id r = user_id r'
                         /\ roleRating role r = roleRating role r')
            ratings ratings' ->
    top role tasks ratings profiles = top role tasks' ratings' profiles.
Proof.
  intros role tasks tasks' ratings ratings' profiles Ht Hr.
  unfold top, ranked, accumulate. do 3 f_equal.
  assert (Hfirst :
    fold_left (countTask role) (selectTasks role tasks) []
    = fold_left (countTask role) (selectTasks role tasks') []).
  { apply fold_left_related
      with (R := fun t t' => roleId role t = roleId role t'
                             /\ status t = status t').
    - intros m t t' [Hid Hst]. now apply countTask_columns.
    - destruct role; simpl; trivial.
      apply filter_related; trivial.
      intros t t' [Hid _]. simpl in Hid. now rewrite Hid. }
  rewrite Hfirst.
  apply fold_left_related
    with (R := fun r r' => user_id r = user_id r'
                           /\ roleRating role r = roleRating role r').
  - intros m r r' [Hid Hq]. now apply attachRating_columns.
  - unfold selectRatings. apply filter_related; trivial.
    intros r r' [_ Hq]. now rewrite Hq.
Qed.

Lemma role_reads_its_own_columns_witness :
  top Creator [mkTaskRow (Some "A") (Some "x") "completed"]
      [mkRatingRow (Some "A") (Some 4) (Some 1)] noProfiles
  = top Creator [mkTaskRow (Some "A") None "completed"]
      [mkRatingRow (Some "A") (Some 4) None] noProfiles.
Proof.
  apply role_reads_its_own_columns; repeat constructor.
Defined.

End LeaderboardUsers.

(* ================================================================== *)
(** * The leaderboard page: effect and table *)
(* ================================================================== *)

Section LeaderboardPage.

Import Leaderboard.

(** Whatever the queries answer, the effect ends with the loading flag
    down.  An error of the task query or of the creator-rating query leaves
    both lists as they were.  When these two succeed the creator list is
    replaced, and an error of the doer query or of the doer-rating query
    then leaves the doer list as it was. *)
Theorem fetch_error_behaviour :
  forall (resp : Responses) (profiles : ProfileStore) (st : PageState),
    let st' := runFetchLeaderboardData resp profiles st in
    st_isLoading st' = false
    /\ (error (tasksResponse resp) = true
        \/ error (ratingsResponse resp) = true ->
        st_topCreators st' = st_topCreators st
        /\ st_topDoers st' = st_topDoers st)
    /\ (error (tasksResponse resp) = false ->
        error (ratingsResponse resp) = false ->
        st_topCreators st'
        = buildTop Creator (data (tasksResponse resp))
            (data (ratingsResponse resp)) profiles
        /\ (error (doersResponse resp) = true
            \/ error (doerRatingsResponse resp) = true ->
            st_topDoers st' = st_topDoers st)).
Proof.
  intros resp profiles st st'. subst st'.
  unfold runFetchLeaderboardData, tryBlock.
  destruct (error (tasksResponse resp)), (error (ratingsResponse resp)),
    (error (doersResponse resp)), (error (doerRatingsResponse resp));
    simpl; (split; [reflexivity|]);
    (split; [intros [He|He]; try discriminate He; now split|]);
    intros He1 He2; try discriminate He1; try discriminate He2;
    (split; [reflexivity|]);
    intros [He|He]; try discriminate He; reflexivity.
Qed.

(** Served by a store that answers every query, the effect leaves the two
    lists computed from the tables of the store, each by its role. *)
Theorem fetch_from_store :
  forall (tasks : list TaskRow) (ratings : list RatingRow)
         (profiles : ProfileStore) (st : PageState),
    runFetchLeaderboardData (respond tasks ratings) profiles st
    = mkPage (fst (fetchLeaderboardData tasks ratings profiles))
             (snd (fetchLeaderboardData tasks ratings profiles)) false.
Proof. reflexivity. Qed.

(** ** The table *)

Lemma nth_error_mapFrom {A B : Type} (f : A -> nat -> B) (l : list A)
    (start i : nat) :
  nth_error (mapFrom f start l) i
  = option_map (fun x => f x (start + i)%nat) (nth_error l i).
Proof.
  revert start i. induction l as [|x l IH]; intros start [|i]; simpl; trivial.
  - now rewrite Nat.add_0_r.
  - rewrite IH. now rewrite Nat.add_succ_r.
Qed.

Lemma map_mapFrom {A B C : Type} (g : B -> C) (h : A -> C)
    (f : A -> nat -> B) (l : list A) (start : nat) :
  (forall x i, g (f x i) = h x) ->
  map g (mapFrom f start l) = map h l.
Proof.
  intros H. revert start. induction l as [|x l IH]; intros start; simpl;
    trivial.
  now rewrite H, IH.
Qed.

(** When the table of a role is shown, its rows are the listed users in
    order, no two rows have the same key, the first three ranks are
    trophies and the ranks after them are the numbers 4 to 10. *)
Theorem table_rows_and_ranks :
  forall (role : Role) (tasks : list TaskRow) (ratings : list RatingRow)
         (profiles : ProfileStore) (isCreators : bool) (header : string)
         (rows : list TableRow),
    renderLeaderboardTable false (top role tasks ratings profiles) isCreators
    = TableView header rows ->
    map row_key rows = map id (top role tasks ratings profiles)
    /\ NoDup (map row_key rows)
    /\ forall i row,
         nth_error rows i = Some row ->
         row_rank row = rankCell i
         /\ ((i < 3)%nat -> exists c, row_rank row = Trophy c)
         /\ (forall n, row_rank row = RankNumber n -> (4 <= n <= 10)%nat).
Proof.
  intros role tasks ratings profiles isCreators header rows.
  unfold renderLeaderboardTable.
  destruct (List.length (top role tasks ratings profiles) =? 0)%nat;
    [discriminate|].
  intros [= _ <-].
  assert (Hkeys : map row_key
                    (mapFrom renderRow 0 (top role tasks ratings profiles))
                  = map id (top role tasks ratings profiles)).
  { apply map_mapFrom. reflexivity. }
  split; [exact Hkeys|]. split.
  { rewrite Hkeys. apply top_distinct. }
  intros i row Hrow. rewrite nth_error_mapFrom in Hrow. simpl in Hrow.
  destruct (nth_error (top role tasks ratings profiles) i) as [e|] eqn:He;
    [|discriminate].
  injection Hrow as <-. simpl.
  assert (Hi : (i < 10)%nat).
  { assert (H : (i < List.length (top role tasks ratings profiles))%nat)
      by (apply nth_error_Some; congruence).
    pose proof (firstn_le_length 10 (ranked role tasks ratings profiles)).
    unfold top, slice0 in H. lia. }
  split; trivial. split.
  - intros Hlt. unfold rankCell.
    destruct i as [|[|[|i]]]; simpl; eauto. lia.
  - intros n. unfold rankCell.
    destruct i as [|[|[|i]]]; simpl; try discriminate.
    intros [= <-]. lia.
Qed.

Lemma table_rows_and_ranks_witness :
  let rows :=
    mapFrom renderRow 0 (top Doer [completedBy "D"] [ratingOfC] noProfiles) in
  map row_key rows = map id (top Doer [completedBy "D"] [ratingOfC] noProfiles)
  /\ NoDup (map row_key rows)
  /\ forall i row,
       nth_error rows i = Some row ->
       row_rank row = rankCell i
       /\ ((i < 3)%nat -> exists c, row_rank row = Trophy c)
       /\ (forall n, row_rank row = RankNumber n -> (4 <= n <= 10)%nat).
Proof.
  intros rows.
  apply (table_rows_and_ranks Doer [completedBy "D"] [ratingOfC] noProfiles
           false "Tasks Completed" rows).
  reflexivity.
Defined.

Lemma render_no_data (users : list LeaderboardUser) (isCreators : bool) :
  renderLeaderboardTable false users isCreators = NoDataView <-> users = [].
Proof.
  unfold renderLeaderboardTable.
  destruct users as [|u users]; simpl; split; trivial; discriminate.
Qed.

Lemma buildTop_nil (role : Role) (tasksData : option (list TaskRow))
    (ratingsData : option (list RatingRow)) (profiles : ProfileStore) :
  buildTop role tasksData ratingsData profiles = []
  <-> NoUsers role tasksData ratingsData.
Proof.
  unfold buildTop, slice0, NoUsers.
  set (m := fold_left (attachRating role) (rowsOf ratingsData)
              (fold_left (countTask role) (rowsOf tasksData) [])).
  assert (Hkeys : forall k, In k (keys m)
            <-> (exists t, In t (rowsOf tasksData)
                           /\ truthy (roleId role t) = Some k)
                \/ (exists r, In r (rowsOf ratingsData)
                              /\ truthy (user_id r) = Some k
                              /\ roleRating role r <> None)).
  { intros k. subst m. rewrite in_keys_second_pass, in_keys_first_pass.
    simpl. tauto. }
  assert (Hnil : firstn 10 (sort compareFn (map (resolve profiles) m)) = []
                 <-> m = []).
  { split.
    - intros H. apply (f_equal (@List.length _)) in H.
      rewrite length_firstn, (Permutation_length (sort_perm compareFn _)),
        length_map in H.
      destruct m; trivial. simpl in H. lia.
    - now intros ->. }
  rewrite Hnil. split.
  - intros Hm. rewrite Hm in Hkeys. split.
    + intros t Ht. destruct (truthy (roleId role t)) as [k|] eqn:E; trivial.
      exfalso. apply (proj2 (Hkeys k)). left. eauto.
    + intros r Hr. destruct (truthy (user_id r)) as [k|] eqn:E; [|now left].
      destruct (roleRating role r) as [q|] eqn:Eq; [|now right].
      exfalso. apply (proj2 (Hkeys k)). right. exists r.
      repeat split; trivial. congruence.
  - intros [Ht Hr]. destruct m as [|[k v] m']; trivial. exfalso.
    destruct (proj1 (Hkeys k) (or_introl eq_refl))
      as [(t & Hin & Hk)|(r & Hin & Hk & Hq)].
    + rewrite (Ht t Hin) in Hk. discriminate.
    + destruct (Hr r Hin) as [H|H]; [congruence | contradiction].
Qed.

(** After the effect has run on the initial page, the creator tab shows
    "No data available" exactly when the task query or the creator-rating
    query answered with an error, or when their answers give no
    accumulator; the doer tab shows it exactly when one of the four queries
    answered with an error, or when the answers of the two doer queries
    give no accumulator. *)
Theorem no_data_view_after_fetch :
  forall (resp : Responses) (profiles : ProfileStore),
    let st' := runFetchLeaderboardData resp profiles initialPage in
    (renderLeaderboardTable (st_isLoading st') (st_topCreators st') true
     = NoDataView
     <-> error (tasksResponse resp) = true
         \/ error (ratingsResponse resp) = true
         \/ NoUsers Creator (data (tasksResponse resp))
              (data (ratingsResponse resp)))
    /\ (renderLeaderboardTable (st_isLoading st') (st_topDoers st') false
        = NoDataView
        <-> error (tasksResponse resp) = true
            \/ error (ratingsResponse resp) = true
            \/ error (doersResponse resp) = true
            \/ error (doerRatingsResponse resp) = true
            \/ NoUsers Doer (data (doersResponse resp))
                 (data (doerRatingsResponse resp))).
Proof.
  intros resp profiles st'. subst st'.
  unfold runFetchLeaderboardData, tryBlock.
  cbn [st_isLoading st_topCreators st_topDoers initialPage].
  destruct (error (tasksResponse resp)); cbn [st_topCreators st_topDoers].
  { split; (split; [auto | intros _; now apply render_no_data]). }
  destruct (error (ratingsResponse resp)); cbn [st_topCreators st_topDoers].
  { split; (split; [auto | intros _; now apply render_no_data]). }
  split.
  - destruct (error (doersResponse resp)), (error (doerRatingsResponse resp));
      cbn [st_topCreators]; rewrite render_no_data, buildTop_nil;
      (split; [auto | intros [H|[H|H]]; trivial; discriminate]).
  - destruct (error (doersResponse resp)); cbn [st_topDoers].
    { split; [auto | intros _; now apply render_no_data]. }
    destruct (error (doerRatingsResponse resp)); cbn [st_topDoers].
    { split; [auto 6 | intros _; now apply render_no_data]. }
    rewrite render_no_data, buildTop_nil.
    split; [auto 6 | intros [H|[H|[H|[H|H]]]]; trivial; discriminate].
Qed.

(** For a listed user the rating badge reads "N/A" exactly when no rating
    row with a positive role average carries the identifier of the user. *)
Theorem rating_badge_not_available_iff :
  forall (role : Role) (tasks : list TaskRow) (ratings : list RatingRow)
         (profiles : ProfileStore) (e : LeaderboardUser),
    In e (top role tasks ratings profiles) ->
    (ratingCell e = NotAvailable
     <-> ~ exists r, In r ratings /\ Qualifies role r (id e)).
Proof.
  intros role tasks ratings profiles e He.
  destruct (top_rating_provenance role tasks ratings profiles e He)
    as [Hfrom Hto].
  assert (Hne : id e <> "") by now apply (top_distinct role tasks ratings profiles).
  unfold ratingCell. destruct (rating e) as [q|] eqn:Hq.
  - destruct (Hfrom q eq_refl) as (Hpos & r & Hr & Hid & Hrq).
    rewrite (proj2 (Qpositive_lt q) Hpos). split; [discriminate|].
    intros Hno. exfalso. apply Hno. exists r. unfold Qualifies. eauto 7.
  - split; [|trivial]. intros _ Hex. now apply Hto.
Qed.

Lemma rating_badge_not_available_iff_witness :
  let e := mkEntry "D" "Unknown User" None None 1 100 in
  ratingCell e = NotAvailable
  <-> ~ exists r, In r [ratingOfC] /\ Qualifies Doer r (id e).
Proof.
  intros e.
  apply (rating_badge_not_available_iff Doer [completedBy "D"] [ratingOfC]
           noProfiles e).
  vm_compute. now left.
Defined.

End LeaderboardPage.

(* ================================================================== *)
(** * Properties of the signup handler *)
(* ================================================================== *)

Section SignupHandler.

Import Signup.

Lemma sameString_eq (a b : JsString) : sameString a b = true <-> a = b.
Proof.
  revert b. induction a as [|x a IH]; intros [|y b]; simpl;
    try (split; [discriminate | discriminate]); [tauto|].
  rewrite andb_true_iff, N.eqb_eq, IH. split.
  - intros [-> ->]. reflexivity.
  - intros [= -> ->]. auto.
Qed.

Lemma test_exists (class : CodeUnit -> bool) (s : JsString) :
  test class s = true <-> exists c, In c s /\ class c = true.
Proof. unfold test. apply existsb_exists. Qed.

Lemma invalidPassword_strong (p : JsString) :
  invalidPassword p = false <-> StrongPassword p.
Proof.
  unfold invalidPassword, StrongPassword.
  rewrite !orb_false_iff, !negb_false_iff, !test_exists,
    !Nat.ltb_ge. tauto.
Qed.

Lemma form_checks (st : FormState) :
  ValidForm st
  <-> sameString (password st) (confirmPassword st) = true
      /\ invalidPassword (password st) = false
      /\ (List.length (username st) <? 5)%nat = false.
Proof.
  unfold ValidForm.
  rewrite sameString_eq, invalidPassword_strong, Nat.ltb_ge. tauto.
Qed.

(** [signUp] is called exactly when the two passwords are equal, the
    password is strong and the username has at least five code units; it
    is then called once, with the fields of the form, the username serving
    as full name, and no toast is shown. *)
Theorem signup_calls_server_iff_valid :
  forall (signUp : SignUpFn) (st : FormState),
    let events := snd (handleSignup signUp st) in
    ((exists e p u f, In (SignUp e p u f) events) <-> ValidForm st)
    /\ (ValidForm st ->
        events = [SignUp (email st) (password st) (username st)
                         (username st)]).
Proof.
  intros signUp st events. subst events.
  rewrite (form_checks st). unfold handleSignup. simpl.
  destruct (sameString (password st) (confirmPassword st)); simpl.
  - destruct (invalidPassword (password st)); simpl.
    + split; [split|]; [intros (e & p & u & f & [H|[]]); discriminate
                       | intros (_ & H & _); discriminate
                       | intros (_ & H & _); discriminate].
    + destruct (List.length (username st) <? 5)%nat; simpl.
      * split; [split|]; [intros (e & p & u & f & [H|[]]); discriminate
                         | intros (_ & _ & H); discriminate
                         | intros (_ & _ & H); discriminate].
      * destruct (signUp (email st) (password st) (username st, username st));
          simpl; (split; [split; [auto|]|trivial]); intros _;
          do 4 eexists; left; reflexivity.
  - split; [split|]; [intros (e & p & u & f & [H|[]]); discriminate
                     | intros (H & _); discriminate
                     | intros (H & _); discriminate].
Qed.

(** A form that fails a check gets one toast and no call: "Password
    Mismatch" when the passwords differ; otherwise "Invalid Password" when
    the password is not strong; otherwise "Username Too Short".  The error
    under the username is cleared and the loading flag is down. *)
Theorem signup_rejection_toast :
  forall (signUp : SignUpFn) (st : FormState),
    let rejected title :=
      handleSignup signUp st
      = (mkForm (username st) (email st) (password st) (confirmPassword st)
           "" false, [Toast title]) in
    (password st <> confirmPassword st -> rejected "Password Mismatch")
    /\ (password st = confirmPassword st ->
        ~ StrongPassword (password st) -> rejected "Invalid Password")
    /\ (password st = confirmPassword st ->
        StrongPassword (password st) ->
        (List.length (username st) < 5)%nat ->
        rejected "Username Too Short").
Proof.
  intros signUp st rejected. subst rejected. unfold handleSignup. simpl.
  split; [|split].
  - intros Hne.
    destruct (sameString (password st) (confirmPassword st)) eqn:E; trivial.
    apply sameString_eq in E. contradiction.
  - intros Heq Hweak. apply sameString_eq in Heq. rewrite Heq. simpl.
    destruct (invalidPassword (password st)) eqn:E; trivial.
    apply invalidPassword_strong in E. contradiction.
  - intros Heq Hstrong Hshort. apply sameString_eq in Heq. rewrite Heq. simpl.
    apply invalidPassword_strong in Hstrong. rewrite Hstrong.
    apply Nat.ltb_lt in Hshort. now rewrite Hshort.
Qed.

Lemma startsWith_app (s sub : JsString) :
  startsWith s sub = true <-> exists post, s = sub ++ post.
Proof.
  revert s. induction sub as [|x sub IH]; intros s.
  - split; [intros _; now exists s | intros _; now destruct s].
  - destruct s as [|y s]; simpl;
      [split; [discriminate | intros (post & H); discriminate]|].
    rewrite andb_true_iff, N.eqb_eq, IH. split.
    + intros [-> (post & ->)]. now exists post.
    + intros (post & [= -> ->]). split; trivial. now exists post.
Qed.

(** [includes] finds [sub] exactly when the text is some prefix, [sub],
    and some suffix. *)
Lemma includes_app (s sub : JsString) :
  includes s sub = true <-> exists pre post, s = pre ++ sub ++ post.
Proof.
  induction s as [|c s IH].
  - cbn [includes]. rewrite orb_false_r, startsWith_app. split.
    + intros (post & H). now exists [], post.
    + intros ([|d pre] & post & H); [now exists post | discriminate].
  - cbn [includes]. rewrite orb_true_iff, startsWith_app, IH. split.
    + intros [(post & H)|(pre & post & H)].
      * now exists [], post.
      * exists (c :: pre), post. simpl. now rewrite H.
    + intros ([|d pre] & post & H).
      * left. now exists post.
      * right. injection H as _ H. now exists pre, post.
Qed.

(** After the handler the loading flag is down and the fields of the form
    are as they were.  The error under the username is the "already taken"
    message exactly when the form was valid and [signUp] answered with an
    error whose message contains "profiles_username_unique"; otherwise it
    is empty, whatever it was before. *)
Theorem signup_final_state :
  forall (signUp : SignUpFn) (st : FormState),
    let st' := fst (handleSignup signUp st) in
    let taken :=
      ValidForm st
      /\ exists err pre post,
           signUp (email st) (password st) (username st, username st)
           = Some err
           /\ message err
              = Some (pre ++ literal "profiles_username_unique" ++ post) in
    loading st' = false
    /\ (username st', email st', password st', confirmPassword st')
       = (username st, email st, password st, confirmPassword st)
    /\ (taken -> usernameError st' = takenMessage)
    /\ (~ taken -> usernameError st' = "").
Proof.
  intros signUp st st' taken. subst st' taken.
  rewrite (form_checks st). unfold handleSignup.
  cbn [password confirmPassword username email setUsernameError setLoading].
  destruct (sameString (password st) (confirmPassword st)); cbn [negb fst];
    [|repeat split; trivial; intros ((H & _) & _); discriminate].
  destruct (invalidPassword (password st)); cbn [fst];
    [repeat split; trivial; intros ((_ & H & _) & _); discriminate|].
  destruct (List.length (username st) <? 5)%nat; cbn [fst];
    [repeat split; trivial; intros ((_ & _ & H) & _); discriminate|].
  destruct (signUp (email st) (password st) (username st, username st))
    as [err|]; cbn [fst].
  - destruct (message err) as [m|] eqn:Hm.
    + destruct (includes m (literal "profiles_username_unique")) eqn:Hinc;
        cbn [loading username email password confirmPassword usernameError
             setUsernameError setLoading].
      * repeat split; trivial. intros Hno. exfalso. apply Hno.
        apply includes_app in Hinc. destruct Hinc as (pre & post & ->).
        repeat split; trivial. now exists err, pre, post.
      * repeat split; trivial.
        intros (_ & err' & pre & post & [= <-] & Hm').
        exfalso. apply not_true_iff_false in Hinc. apply Hinc.
        apply includes_app. exists pre, post. congruence.
    + cbn [loading username email password confirmPassword usernameError
           setUsernameError setLoading].
      repeat split; trivial.
      intros (_ & err' & pre & post & [= <-] & Hm'). congruence.
  - cbn [loading username email password confirmPassword usernameError
         setUsernameError setLoading].
    repeat split; trivial.
    intros (_ & err' & pre & post & H & _). discriminate.
Qed.

(** ** Concrete runs *)

Example signup_username_taken :
  handleSignup usernameTaken sampleForm
  = (mkForm (literal "alice") (literal "alice@example.com")
       (literal "Passw0rd!") (literal "Passw0rd!") takenMessage false,
     [SignUp (literal "alice@example.com") (literal "Passw0rd!")
        (literal "alice") (literal "alice")]).
Proof. reflexivity. Qed.

Example signup_weak_password :
  snd (handleSignup usernameTaken
         (mkForm (literal "alice") (literal "alice@example.com")
            (literal "password1") (literal "password1") "" false))
  = [Toast "Invalid Password"].
Proof. reflexivity. Qed.

Example signup_underscore_is_special :
  snd (handleSignup (fun _ _ _ => None)
         (mkForm (literal "alice") (literal "alice@example.com")
            (literal "Pass_word1") (literal "Pass_word1") "" false))
  = [SignUp (literal "alice@example.com") (literal "Pass_word1")
       (literal "alice") (literal "alice")].
Proof. reflexivity. Qed.

(** A name of four Cyrillic letters has four code units. *)
Example signup_cyrillic_name_too_short :
  handleSignup usernameTaken
    (mkForm cyrillicName (literal "anna@example.com")
       (literal "Passw0rd!") (literal "Passw0rd!") "old error" false)
  = (mkForm cyrillicName (literal "anna@example.com")
       (literal "Passw0rd!") (literal "Passw0rd!") "" false,
     [Toast "Username Too Short"]).
Proof. reflexivity. Qed.

End SignupHandler.
